(** * Board metadata: delta computation and cached metadata reads

    Shallow embedding of [server/boards/utils.ts]:
    - [getMetadataDelta], the diff between two states of a board's metadata;
    - [getBoardMetadataByExternalId], the read of a board's rendered metadata
      through the board-metadata cache.

    JavaScript values are embedded as follows.  A value of type
    [string | undefined] is an [option string] with [None] for [undefined];
    arrays are lists; [Array.prototype.filter], [some], [find] and [map] are
    [List.filter], [existsb], [find] and [map]; an object used as a dictionary
    is a [gmap]; a property access on [undefined] completes abruptly with a
    TypeError; the built-in [String.prototype.toLowerCase] is a parameter of
    the model (class [LowerCase]), known to lower-case the ASCII letters. *)

From Stdlib Require Import String Ascii ZArith List Bool.
From stdpp Require Import gmap strings list fin_maps.

Local Open Scope string_scope.

(** ** JavaScript primitives used by the module *)

(** A JavaScript string is embedded as the [string] of its UTF-8 bytes, the
    encoding of this file; two JavaScript strings are equal exactly when their
    embeddings are. *)

(** Lower-casing of the ASCII letters: [A]-[Z] are mapped to [a]-[z], every
    other character is kept. *)
Definition asciiLowerCase_char (c : ascii) : ascii :=
  let n := nat_of_ascii c in
  if (65 <=? n)%nat && (n <=? 90)%nat then ascii_of_nat (n + 32) else c.

Fixpoint asciiLowerCase (s : string) : string :=
  match s with
  | EmptyString => EmptyString
  | String c rest => String (asciiLowerCase_char c) (asciiLowerCase rest)
  end.

(** The strings made of ASCII characters only. *)
Fixpoint is_ascii (s : string) : bool :=
  match s with
  | EmptyString => true
  | String c rest => (nat_of_ascii c <? 128)%nat && is_ascii rest
  end.

(** Two characters that are the same, or the upper-case and the lower-case
    form of one ASCII letter; two strings that differ at most in this way,
    position by position. *)
Definition sameLetter (a b : ascii) : bool :=
  let x := nat_of_ascii a in
  let y := nat_of_ascii b in
  (x =? y)%nat
  || ((65 <=? x)%nat && (x <=? 90)%nat && (y =? x + 32)%nat)
  || ((65 <=? y)%nat && (y <=? 90)%nat && (x =? y + 32)%nat).

Fixpoint differOnlyInCase (s1 s2 : string) : bool :=
  match s1, s2 with
  | EmptyString, EmptyString => true
  | String a r1, String b r2 => sameLetter a b && differOnlyInCase r1 r2
  | _, _ => false
  end.

(** [String.prototype.toLowerCase], a built-in of the language: it
    lower-cases every cased letter of Unicode, by tables that are not part of
    the repository.  The model takes the function as given, with the one fact
    about it that is used to run examples: on a string of ASCII characters it
    lower-cases the letters [A]-[Z] and keeps the rest. *)
Class LowerCase := {
  toLowerCase : string -> string;
  toLowerCase_ascii : forall s, is_ascii s = true -> toLowerCase s = asciiLowerCase s
}.

(** The lower-casing used to run the model on ASCII data. *)
#[global] Instance asciiOnly : LowerCase :=
  {| toLowerCase := asciiLowerCase;
     toLowerCase_ascii := fun s _ => eq_refl |}.

(** [a == b] and [a === b] on two strings. *)
Definition str_eq (a b : string) : bool := String.eqb a b.

(** [a != b] on two values of type [string | undefined]. *)
Definition loose_neq (a b : option string) : bool := bool_decide (a ≠ b).

(** Truthiness of a value of type [string | undefined]: [undefined] and the
    empty string are falsy. *)
Definition truthy (v : option string) : bool :=
  match v with
  | Some s => negb (String.eqb s "")
  | None => false
  end.

(** How an evaluation completes: normally with a value, or abruptly with a
    thrown error. *)
Inductive JsError := TypeError | SyntaxError.

Inductive Completion (A : Type) :=
| Normal (a : A)
| Throw (e : JsError).
Arguments Normal {A} a.
Arguments Throw {A} e.

(** A property of an object whose declared type marks it optional
    ([name?: T]): the object has no such key, or it has the key, holding
    [undefined] or a value. *)
Inductive OptionalProperty (A : Type) :=
| NoKey
| Key (v : option A).
Arguments NoKey {A}.
Arguments Key {A} v.

Definition hasKey {A} (p : OptionalProperty A) : bool :=
  match p with NoKey => false | Key _ => true end.

Abbreviation undefined := None (only parsing).

(** ** Data model *)

Inductive DescriptionType := text | category_filter.

(** Modelled from the spec: the declarations of [DbBoardTextDescription],
    [DbBoardCategoryDescription] (module [Types]) and [BoardByExternalId]
    (module [./sql/types]) are not among the sources.  The fields are the ones
    the return type of [getMetadataDelta] lists for a description ([id],
    [index], [title], [type], [description], [categories]); the [type] of a
    description is the constructor of [BoardDescription]. *)
Module Text.
Record t := mk {
  id : string;
  index : Z;
  title : string;
  description : string
}.
End Text.

Module CategoryFilter.
Record t := mk {
  id : string;
  index : Z;
  title : string;
  description : option string;
  categories : list string
}.
End CategoryFilter.

Inductive BoardDescription :=
| TextDescription (d : Text.t)
| CategoryDescription (d : CategoryFilter.t).

Definition type (desc : BoardDescription) : DescriptionType :=
  match desc with
  | TextDescription _ => text
  | CategoryDescription _ => category_filter
  end.

Record Settings := { accentColor : option string }.

(** [Partial<BoardByExternalId>], restricted to the properties the module
    reads: each of them may be absent. *)
Record BoardByExternalId := {
  descriptions : option (list BoardDescription);
  settings : option Settings;
  tagline : option string
}.

(** The type guards [(desc): desc is DbBoardTextDescription => desc.type ==
    "text"] and [(desc): desc is DbBoardCategoryDescription => desc.type ==
    "category_filter"]. *)
Definition isText (desc : BoardDescription) : option Text.t :=
  match desc with
  | TextDescription d => Some d
  | CategoryDescription _ => None
  end.

Definition isCategoryFilter (desc : BoardDescription) : option CategoryFilter.t :=
  match desc with
  | TextDescription _ => None
  | CategoryDescription d => Some d
  end.

(** ** The delta *)

Record IdOnly := { id : string }.

Module TextUpdate.
Record t := mk {
  id : string;
  index : Z;
  title : string;
  description : string;
  updated : bool
}.
(** The description an entry was spread from. *)
Definition item (e : t) : Text.t :=
  Text.mk (id e) (index e) (title e) (description e).
End TextUpdate.

Record CategoriesDelta := {
  deleted_categories : list string;
  new_categories : list string
}.

Module FilterUpdate.
Record t := mk {
  id : string;
  index : Z;
  title : string;
  type : DescriptionType;
  description : option string;
  categories : option CategoriesDelta;
  updated : bool
}.
End FilterUpdate.

Record SectionDelta (A : Type) := {
  deleted : list IdOnly;
  newAndUpdated : list A
}.
Arguments deleted {A} s.
Arguments newAndUpdated {A} s.

Module Delta.
Record t := mk {
  accentColor : OptionalProperty string;
  tagline : OptionalProperty string;
  texts : SectionDelta TextUpdate.t;
  categoryFilters : SectionDelta FilterUpdate.t
}.
End Delta.

(** ** [getMetadataDelta] *)

Section GetMetadataDelta.
Context {LC : LowerCase}.
Variables oldMetadata newMetadata : BoardByExternalId.

Definition oldTexts : list Text.t :=
  match descriptions oldMetadata with
  | Some descs => omap isText descs
  | None => []
  end.

Definition oldCategoryFilters : list CategoryFilter.t :=
  match descriptions oldMetadata with
  | Some descs => omap isCategoryFilter descs
  | None => []
  end.

Definition newTexts : list Text.t :=
  match descriptions newMetadata with
  | Some descs => omap isText descs
  | None => []
  end.

Definition newCategoryFilters : list CategoryFilter.t :=
  match descriptions newMetadata with
  | Some descs => omap isCategoryFilter descs
  | None => []
  end.

(* Deleted texts will be in oldTexts but not newTexts *)
Definition deletedTexts : list Text.t :=
  List.filter
    (fun oldText =>
       negb (existsb (fun newText => str_eq (Text.id newText) (Text.id oldText))
                     newTexts))
    oldTexts.

Definition newAndUpdatedTexts : list TextUpdate.t :=
  map (fun text =>
         TextUpdate.mk (Text.id text) (Text.index text) (Text.title text)
           (Text.description text)
           (existsb (fun oldText => str_eq (Text.id oldText) (Text.id text))
                    oldTexts))
      newTexts.

(* Deleted filters will be in oldCategoryFilters but not newCategoryFilters *)
Definition deletedFilters : list CategoryFilter.t :=
  List.filter
    (fun oldFilter =>
       negb (existsb
               (fun newFilter =>
                  str_eq (CategoryFilter.id newFilter) (CategoryFilter.id oldFilter))
               newCategoryFilters))
    oldCategoryFilters.

(** The body of the callback of [newCategoryFilters.map]: its three
    constants, then the entry it returns. *)
Definition oldFilter (newFilter : CategoryFilter.t) : option CategoryFilter.t :=
  find (fun oldFilter =>
          str_eq (CategoryFilter.id oldFilter) (CategoryFilter.id newFilter))
       oldCategoryFilters.

(* Deleted categories will be in oldFilter's but not newFilter's.
   If there's no oldFilter, by definition nothing will have been deleted. *)
Definition deletedCategories (newFilter : CategoryFilter.t) : list string :=
  match oldFilter newFilter with
  | Some oldFilter =>
      List.filter
        (fun oldCategory =>
           negb (existsb
                   (fun newCategory =>
                      str_eq (toLowerCase oldCategory) (toLowerCase newCategory))
                   (CategoryFilter.categories newFilter)))
        (CategoryFilter.categories oldFilter)
  | None => []
  end.

(* New categories will be in newFilter's but not oldFilter's.
   If there's no oldFilter, by definition everything will be new *)
Definition newCategories (newFilter : CategoryFilter.t) : list string :=
  match oldFilter newFilter with
  | Some oldFilter =>
      List.filter
        (fun newCategory =>
           negb (existsb
                   (fun oldCategory =>
                      str_eq (toLowerCase oldCategory) (toLowerCase newCategory))
                   (CategoryFilter.categories oldFilter)))
        (CategoryFilter.categories newFilter)
  | None => CategoryFilter.categories newFilter
  end.

Definition newAndUpdatedFilter (newFilter : CategoryFilter.t) : FilterUpdate.t :=
  FilterUpdate.mk
    (CategoryFilter.id newFilter) (CategoryFilter.index newFilter)
    (CategoryFilter.title newFilter) category_filter
    (CategoryFilter.description newFilter)
    (Some {| deleted_categories := deletedCategories newFilter;
             new_categories := newCategories newFilter |})
    (* !!oldFilter *)
    (match oldFilter newFilter with Some _ => true | None => false end).

Definition newAndUpdatedFilters : list FilterUpdate.t :=
  map newAndUpdatedFilter newCategoryFilters.

(** The non-null assertions [settings!] are erased by the compiler: reading
    [accentColor] from an absent [settings] throws a TypeError. *)
Definition getMetadataDelta : Completion Delta.t :=
  match settings oldMetadata with
  | None => Throw TypeError
  | Some oldSettings =>
      match settings newMetadata with
      | None => Throw TypeError
      | Some newSettings =>
          Normal
            (Delta.mk
               (Key (if loose_neq (accentColor oldSettings) (accentColor newSettings)
                     then accentColor newSettings
                     else undefined))
               (Key (if loose_neq (tagline oldMetadata) (tagline newMetadata)
                     then tagline newMetadata
                     else undefined))
               {| deleted := map (fun text => {| id := Text.id text |}) deletedTexts;
                  newAndUpdated := newAndUpdatedTexts |}
               {| deleted :=
                    map (fun filter => {| id := CategoryFilter.id filter |})
                        deletedFilters;
                  newAndUpdated := newAndUpdatedFilters |})
      end
  end.
End GetMetadataDelta.

(** The states whose categories are all made of ASCII characters. *)
Definition asciiCategories (m : BoardByExternalId) : Prop :=
  forall f c, In f (newCategoryFilters m) -> In c (CategoryFilter.categories f) ->
              is_ascii c = true.

(** ** [getBoardMetadataByExternalId] *)

(** The cache is a store of hashes: [hGet key field] and
    [hSet key field value].  Besides the store, the state records every
    operation issued against the cache, reads included. *)
Inductive CacheOp :=
| HGet (key field : string)
| HSet (key field value : string).

Record CacheState := {
  store : gmap string (gmap string string);
  ops : list CacheOp
}.

Definition hGet (key field : string) (c : CacheState) : option string * CacheState :=
  (store c !! key ≫= (.!! field),
   {| store := store c; ops := ops c ++ [HGet key field] |}).

Definition hSet (key field value : string) (c : CacheState) : CacheState :=
  {| store := <[key := <[field := value]> (default ∅ (store c !! key))]> (store c);
     ops := ops c ++ [HSet key field value] |}.

(** What the returned promise settles with: the parsed cache entry, [null],
    or the freshly rendered metadata. *)
Inductive BoardMetadataResult (Parsed Value : Type) :=
| ParsedFromCache (v : Parsed)
| Null
| Rendered (finalMetadata : gmap string Value).
Arguments ParsedFromCache {Parsed Value} v.
Arguments Null {Parsed Value}.
Arguments Rendered {Parsed Value} finalMetadata.

Section GetBoardMetadataByExternalId.
(** The collaborators imported by the module, none of which is among the
    sources: the cache key, the storage query, the response shaping
    functions and the JSON codec. *)
Variables Board Parsed Value : Type.
Variable BOARD_METADATA : string.
Variable getBoardByExternalId : option string -> string -> option Board.
Variable processBoardsSummary : list Board -> bool -> bool -> list (gmap string Value).
Variable processBoardMetadata : Board -> bool -> bool -> gmap string Value.
Variable stringify : gmap string Value -> string.
Variable JSON_parse : string -> Completion Parsed.

(** The path after the cache lookup missed or was skipped (from the
    storage query to the end of the function). *)
Definition fetchAndRender (boardExternalId : string) (firebaseId : option string)
    (hasBoardAccess : bool) (c : CacheState)
  : Completion (BoardMetadataResult Parsed Value) * CacheState :=
  match getBoardByExternalId firebaseId boardExternalId with
  | None => (Normal Null, c)
  | Some board =>
      let boardSummary :=
        processBoardsSummary [board] (truthy firebaseId) hasBoardAccess in
      let boardMetadata :=
        processBoardMetadata board (truthy firebaseId) hasBoardAccess in
      (* {...boardSummary[0], ...boardMetadata}: later spreads win *)
      let finalMetadata := boardMetadata ∪ default ∅ (boardSummary !! 0%nat) in
      let c' :=
        if negb (truthy firebaseId)
        then hSet BOARD_METADATA boardExternalId (stringify finalMetadata) c
        else c in
      (Normal (Rendered finalMetadata), c')
  end.

Definition getBoardMetadataByExternalId (boardExternalId : string)
    (firebaseId : option string) (hasBoardAccess : bool) (c : CacheState)
  : Completion (BoardMetadataResult Parsed Value) * CacheState :=
  if negb (truthy firebaseId) then
    let '(cachedBoard, c1) := hGet BOARD_METADATA boardExternalId c in
    match cachedBoard with
    | Some cached =>
        if truthy cachedBoard then
          match JSON_parse cached with
          | Normal v => (Normal (ParsedFromCache v), c1)
          | Throw e => (Throw e, c1)
          end
        else fetchAndRender boardExternalId firebaseId hasBoardAccess c1
    | None => fetchAndRender boardExternalId firebaseId hasBoardAccess c1
    end
  else fetchAndRender boardExternalId firebaseId hasBoardAccess c.
End GetBoardMetadataByExternalId.

(** ** The routes of [server/posts]

    Each handler is the [async (req, res) => ...] callback registered on the
    router, run after the authentication middleware.  It is a function of the
    storage and the request that gives how the handler settles, the storage
    afterwards, and the subscription updates it triggers. *)

(** [req]: the authenticated user if any, the id bound by the route
    ([:post_id] or [:postId]), and the body, an object whose properties are
    read by name. *)
Record User := { uid : string }.

Record Request (Json : Type) := {
  currentUser : option User;
  routePostId : string;
  body : gmap string Json
}.
Arguments currentUser {Json} r.
Arguments routePostId {Json} r.
Arguments body {Json} r.

(** [res.sendStatus(code)] and [res.status(code).json(body)]. *)
Inductive Response (Body : Type) :=
| SendStatus (code : Z)
| StatusJson (code : Z) (body : Body).
Arguments SendStatus {Body} code.
Arguments StatusJson {Body} code body.

(** The handler sent a response, or its promise rejected before any
    response was sent because an evaluation threw. *)
Inductive Settled (Body : Type) :=
| Responded (r : Response Body)
| Rejected.
Arguments Responded {Body} r.
Arguments Rejected {Body}.

(** The JSON bodies the four routes send. *)
Inductive Body (ServerPost ServerComment : Type) :=
| ContributionBody (contribution : ServerPost)
| CommentBody (comment : ServerComment)
| CommentsBody (comments : list ServerComment)
| PostBody (post : ServerPost).
Arguments ContributionBody {ServerPost ServerComment} contribution.
Arguments CommentBody {ServerPost ServerComment} comment.
Arguments CommentsBody {ServerPost ServerComment} comments.
Arguments PostBody {ServerPost ServerComment} post.

Record Tags (Json : Type) := {
  tags_whisperTags : option Json;
  tags_indexTags : option Json;
  tags_categoryTags : option Json;
  tags_contentWarnings : option Json
}.
Arguments tags_whisperTags {Json} t.
Arguments tags_indexTags {Json} t.
Arguments tags_categoryTags {Json} t.
Arguments tags_contentWarnings {Json} t.

(** The arguments of [postNewContribution], [postNewComment] and
    [postNewCommentChain]. *)
Record ContributionArgs (Json : Type) := {
  contribution_firebaseId : string;
  contribution_identityId : option Json;
  contribution_accessoryId : option Json;
  contribution_parentPostId : string;
  contribution_content : option Json;
  contribution_isLarge : bool;
  contribution_anonymityType : string;
  contribution_tags : Tags Json
}.

Record CommentArgs (Json : Type) := {
  comment_firebaseId : string;
  comment_parentPostId : string;
  comment_parentCommentId : option Json;
  comment_content : option Json;
  comment_anonymityType : string;
  comment_identityId : option Json;
  comment_accessoryId : option Json
}.

Record CommentChainArgs (Json : Type) := {
  chain_firebaseId : string;
  chain_parentPostId : string;
  chain_parentCommentId : option Json;
  chain_contentArray : option Json;
  chain_anonymityType : string;
  chain_identityId : option Json
}.

(** The argument of [maybeUpdateSubscriptionsOnThreadChange]. *)
Record SubscriptionUpdate (Json : Type) := {
  update_threadId : Json;
  update_postId : Json;
  update_boardSlug : string;
  update_secretIdentity : Json;
  update_categoryNames : option Json
}.

Section PostsRoutes.
(** The collaborators imported by the routes, none of which is among the
    sources.  A query takes the storage and gives its result, [None] standing
    for a falsy one, and for a write the storage afterwards; a query whose
    promise rejects is outside the model.  [getPostFromStringId] gives the
    post: the edit route reads its properties without a guard.
    [ensureNoIdentityLeakage] gives [false] where it throws.  The calls to the
    debug loggers are left out. *)
Variables Json Db Permission DbPost DbComment TagsDelta ServerPost ServerComment : Type.
Variable js_truthy : Json -> bool.
Variable postNewContribution :
  Db -> ContributionArgs Json -> option (DbPost * string) * Db.
Variable postNewComment : Db -> CommentArgs Json -> option DbComment * Db.
Variable postNewCommentChain :
  Db -> CommentChainArgs Json -> option (list DbComment) * Db.
Variable getUserPermissionsForPost : Db -> string -> string -> option (list Permission).
Variable getPostFromStringId : Db -> string -> string -> DbPost.
Variable updatePostTags : Db -> string -> string -> TagsDelta -> option DbPost * Db.
Variable content_warnings index_tags category_tags whisper_tags : DbPost -> option Json.
Variable makeServerPost : DbPost -> ServerPost.
Variable makeServerComment : DbComment -> ServerComment.
Variable ensureNoIdentityLeakage : ServerPost + ServerComment -> bool.
Variable getTagsDelta : Tags Json -> Tags Json -> TagsDelta.
Variable canDoTagsEdit : TagsDelta -> list Permission -> bool.
Variable parent_thread_id post_id secret_identity : ServerPost -> Json.
Variable server_category_tags : ServerPost -> option Json.

(** Truthiness of a property read from the body: a missing property is
    [undefined]. *)
Definition truthy_property (v : option Json) : bool :=
  match v with
  | Some j => js_truthy j
  | None => false
  end.

(** [forceAnonymous ? "everyone" : "strangers"] *)
Definition anonymityType (forceAnonymous : option Json) : string :=
  if truthy_property forceAnonymous then "everyone" else "strangers".

Definition RouteResult : Type :=
  Settled (Body ServerPost ServerComment) * Db * list (SubscriptionUpdate Json).

(** [router.post("/:post_id/contribute", ensureLoggedIn, ...)] *)
Definition contribute (db : Db) (req : Request Json) : RouteResult :=
  match currentUser req with
  | None => (Rejected, db, [])   (* req.currentUser.uid throws *)
  | Some user =>
      let '(result, db') :=
        postNewContribution db
          {| contribution_firebaseId := uid user;
             contribution_identityId := body req !! "identity_id";
             contribution_accessoryId := body req !! "accessory_id";
             contribution_parentPostId := routePostId req;
             contribution_content := body req !! "content";
             contribution_isLarge := truthy_property (body req !! "large");
             contribution_anonymityType := anonymityType (body req !! "forceAnonymous");
             contribution_tags :=
               {| tags_whisperTags := body req !! "whisper_tags";
                  tags_indexTags := body req !! "index_tags";
                  tags_categoryTags := body req !! "category_tags";
                  tags_contentWarnings := body req !! "content_warnings" |} |} in
      match result with
      | None => (Responded (SendStatus 500), db', [])
      | Some (contribution, boardSlug) =>
          let responsePost := makeServerPost contribution in
          if ensureNoIdentityLeakage (inl responsePost) then
            (Responded (StatusJson 200 (ContributionBody responsePost)), db',
             [{| update_threadId := parent_thread_id responsePost;
                 update_postId := post_id responsePost;
                 update_boardSlug := boardSlug;
                 update_secretIdentity := secret_identity responsePost;
                 update_categoryNames := server_category_tags responsePost |}])
          else (Rejected, db', [])
      end
  end.

(** [router.post("/:postId/comment", isLoggedIn, ...)] *)
Definition comment (db : Db) (req : Request Json) : RouteResult :=
  match currentUser req with
  | None => (Responded (SendStatus 401), db, [])
  | Some user =>
      let '(comment, db') :=
        postNewComment db
          {| comment_firebaseId := uid user;
             comment_parentPostId := routePostId req;
             comment_parentCommentId := body req !! "replyToCommentId";
             comment_content := body req !! "content";
             comment_anonymityType := anonymityType (body req !! "forceAnonymous");
             comment_identityId := body req !! "identityId";
             comment_accessoryId := body req !! "accessoryId" |} in
      match comment with
      | None => (Responded (SendStatus 500), db', [])
      | Some comment =>
          let responseComment := makeServerComment comment in
          if ensureNoIdentityLeakage (inr responseComment) then
            (Responded (StatusJson 200 (CommentBody responseComment)), db', [])
          else (Rejected, db', [])
      end
  end.

(** [router.post("/:postId/comment/chain", isLoggedIn, ...)] *)
Definition commentChain (db : Db) (req : Request Json) : RouteResult :=
  match currentUser req with
  | None => (Responded (SendStatus 401), db, [])
  | Some user =>
      let '(comments, db') :=
        postNewCommentChain db
          {| chain_firebaseId := uid user;
             chain_parentPostId := routePostId req;
             chain_parentCommentId := body req !! "replyToCommentId";
             chain_contentArray := body req !! "contentArray";
             chain_anonymityType := anonymityType (body req !! "forceAnonymous");
             chain_identityId := body req !! "identityId" |} in
      match comments with
      | None => (Responded (SendStatus 500), db', [])
      | Some comments =>
          let responseComments := map makeServerComment comments in
          if forallb (fun comment => ensureNoIdentityLeakage (inr comment))
                     responseComments then
            (Responded (StatusJson 200 (CommentsBody responseComments)), db', [])
          else (Rejected, db', [])
      end
  end.

(** The delta the edit route computes: the tags stored for the post against
    the tags of the body. *)
Definition requestedTagsDelta (db : Db) (firebaseId : string) (req : Request Json)
  : TagsDelta :=
  let postDetails := getPostFromStringId db firebaseId (routePostId req) in
  let postTags :=
    {| tags_contentWarnings := content_warnings postDetails;
       tags_indexTags := index_tags postDetails;
       tags_categoryTags := category_tags postDetails;
       tags_whisperTags := whisper_tags postDetails |} in
  let newTags :=
    {| tags_whisperTags := body req !! "whisperTags";
       tags_indexTags := body req !! "indexTags";
       tags_categoryTags := body req !! "categoryTags";
       tags_contentWarnings := body req !! "contentWarnings" |} in
  getTagsDelta postTags newTags.

(** [router.post("/:postId/edit", isLoggedIn, ...)] *)
Definition edit (db : Db) (req : Request Json) : RouteResult :=
  match currentUser req with
  | None => (Responded (SendStatus 401), db, [])
  | Some user =>
      let firebaseId := uid user in
      match getUserPermissionsForPost db firebaseId (routePostId req) with
      | None => (Responded (SendStatus 500), db, [])
      | Some permissions =>
          if (length permissions =? 0)%nat then (Responded (SendStatus 401), db, [])
          else
            let tagsDelta := requestedTagsDelta db firebaseId req in
            if negb (canDoTagsEdit tagsDelta permissions) then
              (Responded (SendStatus 401), db, [])
            else
              let '(updatedDetails, db') :=
                updatePostTags db firebaseId (routePostId req) tagsDelta in
              match updatedDetails with
              | None => (Responded (SendStatus 500), db', [])
              | Some updatedDetails =>
                  let responsePost := makeServerPost updatedDetails in
                  if ensureNoIdentityLeakage (inl responsePost) then
                    (Responded (StatusJson 220 (PostBody responsePost)), db', [])
                  else (Rejected, db', [])
              end
      end
  end.
End PostsRoutes.

(** The three parts of what a handler gives. *)
Definition settled {S D U : Type} (r : S * D * U) : S := r.1.1.
Definition storage {S D U : Type} (r : S * D * U) : D := r.1.2.
Definition updates {S D U : Type} (r : S * D * U) : U := r.2.

(** The posts and comments a JSON body carries. *)
Definition body_items {ServerPost ServerComment : Type}
    (b : Body ServerPost ServerComment) : list (ServerPost + ServerComment) :=
  match b with
  | ContributionBody contribution => [inl contribution]
  | CommentBody comment => [inr comment]
  | CommentsBody comments => map inr comments
  | PostBody post => [inl post]
  end.

(** ** Example states *)

Definition board (descs : option (list BoardDescription)) (color tag : option string)
  : BoardByExternalId :=
  {| descriptions := descs;
     settings := Some {| accentColor := color |};
     tagline := tag |}.

Definition t1 : Text.t := Text.mk "t1" 1 "Rules" "Be kind".
Definition t2 : Text.t := Text.mk "t2" 2 "About" "A board".
Definition parity : CategoryFilter.t :=
  CategoryFilter.mk "f1" 3 "Parity" None ["odd"; "even"].
Definition gore (cats : list string) : CategoryFilter.t :=
  CategoryFilter.mk "f2" 4 "Gore" None cats.

Definition no_settings : BoardByExternalId :=
  {| descriptions := None; settings := None; tagline := Some "hello" |}.

Definition t3 : Text.t := Text.mk "t3" 5 "Old news" "Gone".
Definition legacy : CategoryFilter.t :=
  CategoryFilter.mk "f3" 6 "Legacy" None ["retired"].

(** An edit that keeps [t1], drops [t3] and [legacy], adds [t2] and [parity],
    and changes the categories of the filter [f2]. *)
Definition before_edit : BoardByExternalId :=
  board (Some [TextDescription t1; TextDescription t3;
               CategoryDescription (gore ["Blood"; "guts"]);
               CategoryDescription legacy])
        (Some "#ff5252") (Some "hi").

Definition after_edit : BoardByExternalId :=
  board (Some [TextDescription t1; TextDescription t2;
               CategoryDescription parity;
               CategoryDescription (gore ["blood"; "bones"])])
        (Some "#ff5252") (Some "hello").

Definition edit_delta : Delta.t :=
  Delta.mk (Key undefined) (Key (Some "hello"))
    {| deleted := [{| id := "t3" |}];
       newAndUpdated :=
         [TextUpdate.mk "t1" 1 "Rules" "Be kind" true;
          TextUpdate.mk "t2" 2 "About" "A board" false] |}
    {| deleted := [{| id := "f3" |}];
       newAndUpdated :=
         [FilterUpdate.mk "f1" 3 "Parity" category_filter None
            (Some {| deleted_categories := []; new_categories := ["odd"; "even"] |})
            false;
          FilterUpdate.mk "f2" 4 "Gore" category_filter None
            (Some {| deleted_categories := ["guts"]; new_categories := ["bones"] |})
            true] |}.

(** A deployment with one board, used to run the function. *)
Definition one_board (firebaseId : option string) (boardExternalId : string)
  : option unit :=
  if String.eqb boardExternalId "b1" then Some tt else None.

Definition summary_of (boards : list unit) (isLoggedIn hasRealmMemberAccess : bool)
  : list (gmap string string) :=
  map (fun _ => {[ "slug" := "gore" ]}) boards.

Definition metadata_of (metadata : unit) (isLoggedIn hasBoardAccess : bool)
  : gmap string string :=
  {[ "tagline" := if isLoggedIn then "welcome back" else "welcome" ]}.

(** Stand-ins for the serializer and the parser: every rendering is
    written as the empty object, and a text parses, to itself, when it opens
    as an object does. *)
Definition demo_stringify (o : gmap string string) : string := "{}".

Definition demo_JSON_parse (text : string) : Completion string :=
  if String.prefix "{" text then Normal text else Throw SyntaxError.

Definition run_one_board :=
  getBoardMetadataByExternalId unit string string "BOARD_METADATA" one_board
    summary_of metadata_of demo_stringify demo_JSON_parse.

Definition warm_cache : CacheState :=
  {| store := {[ "BOARD_METADATA" := {[ "b1" := "{}" ]} ]}; ops := [] |}.

Definition corrupt_cache : CacheState :=
  {| store := {[ "BOARD_METADATA" := {[ "b1" := "cached b1" ]} ]}; ops := [] |}.

Definition cold_cache : CacheState := {| store := ∅; ops := [] |}.

(** A small deployment of the posts routes: the storage is the list of
    what was written, a post or a comment is its text, the user [mod] may
    edit category tags, the user [guest] holds no permission, and an identity
    leaks in the text [leak]. *)
Definition demo_truthy (j : string) : bool := negb (String.eqb j "false").

Definition demo_postNewContribution (db : list string) (args : ContributionArgs string)
  : option (string * string) * list string :=
  match contribution_content string args with
  | Some content => (Some (content, "gore"), content :: db)
  | None => (None, db)
  end.

Definition demo_postNewComment (db : list string) (args : CommentArgs string)
  : option string * list string :=
  match comment_content string args with
  | Some content => (Some content, content :: db)
  | None => (None, db)
  end.

Definition demo_postNewCommentChain (db : list string) (args : CommentChainArgs string)
  : option (list string) * list string :=
  match chain_contentArray string args with
  | Some content => (Some [content; content], content :: content :: db)
  | None => (None, db)
  end.

Definition demo_permissions (db : list string) (firebaseId postId : string)
  : option (list string) :=
  if String.eqb firebaseId "mod" then Some ["edit_category_tags"]
  else if String.eqb firebaseId "guest" then Some []
  else None.

Definition demo_getTagsDelta (oldTags newTags : Tags string)
  : option string * option string :=
  (tags_categoryTags oldTags, tags_categoryTags newTags).

Definition demo_canDoTagsEdit (delta : option string * option string)
    (permissions : list string) : bool :=
  existsb (String.eqb "edit_category_tags") permissions.

Definition demo_updatePostTags (db : list string) (firebaseId postId : string)
    (delta : option string * option string) : option string * list string :=
  match delta.2 with
  | Some tag => (Some tag, tag :: db)
  | None => (None, db)
  end.

Definition demo_leak_free (x : string + string) : bool :=
  match x with
  | inl post => negb (String.eqb post "leak")
  | inr comment => negb (String.eqb comment "leak")
  end.

Definition demo_edit :=
  edit string (list string) string string (option string * option string) string string
    demo_permissions (fun _ _ _ => "stored") demo_updatePostTags
    (fun _ => None) (fun _ => None) (fun p => Some p) (fun _ => None)
    (fun p => p) demo_leak_free demo_getTagsDelta demo_canDoTagsEdit.

Definition demo_contribute :=
  contribute string (list string) string string string demo_truthy
    demo_postNewContribution (fun p => p) demo_leak_free
    (fun p => p) (fun p => p) (fun p => p) (fun p => Some p).

Definition demo_comment :=
  comment string (list string) string string string demo_truthy demo_postNewComment
    (fun c => c) demo_leak_free.

Definition demo_commentChain :=
  commentChain string (list string) string string string demo_truthy
    demo_postNewCommentChain
    (fun c => c) demo_leak_free.

Definition request_of (user : option string) (fields : list (string * string))
  : Request string :=
  {| currentUser := (fun u => {| uid := u |}) <$> user;
     routePostId := "p1";
     body := list_to_map fields |}.

(** ** Facts shared by the proofs *)

Lemma str_eq_true (a b : string) : str_eq a b = true ↔ a = b.
Proof. unfold str_eq. apply String.eqb_eq. Qed.

Lemma loose_neq_true (a b : option string) : loose_neq a b = true ↔ a ≠ b.
Proof. unfold loose_neq. apply bool_decide_eq_true. Qed.

Lemma loose_neq_false (a b : option string) : loose_neq a b = false ↔ a = b.
Proof.
  unfold loose_neq. rewrite bool_decide_eq_false. split.
  - intros H. destruct (decide (a = b)); [done | contradiction].
  - intros -> H. by apply H.
Qed.

(** The type guards select by the [type] discriminant. *)
Lemma isText_type (desc : BoardDescription) :
  is_Some (isText desc) ↔ type desc = text.
Proof. destruct desc; simpl; split; intros H; try done; by inversion H. Qed.

Lemma isCategoryFilter_type (desc : BoardDescription) :
  is_Some (isCategoryFilter desc) ↔ type desc = category_filter.
Proof. destruct desc; simpl; split; intros H; try done; by inversion H. Qed.

Lemma newTexts_elem_of (n : BoardByExternalId) (t : Text.t) :
  t ∈ newTexts n ↔ ∃ descs, descriptions n = Some descs ∧ TextDescription t ∈ descs.
Proof.
  unfold newTexts. destruct (descriptions n) as [descs |].
  - rewrite list_elem_of_omap. split.
    + intros ([t' | f] & Hin & Heq); simpl in Heq; [| done].
      injection Heq as ->. eauto.
    + intros (descs' & Heq & Hin). injection Heq as <-.
      by exists (TextDescription t).
  - split; [intros H; inversion H | by intros (? & ? & _)].
Qed.

Lemma newCategoryFilters_elem_of (n : BoardByExternalId) (f : CategoryFilter.t) :
  f ∈ newCategoryFilters n ↔
  ∃ descs, descriptions n = Some descs ∧ CategoryDescription f ∈ descs.
Proof.
  unfold newCategoryFilters. destruct (descriptions n) as [descs |].
  - rewrite list_elem_of_omap. split.
    + intros ([t | f'] & Hin & Heq); simpl in Heq; [done |].
      injection Heq as ->. eauto.
    + intros (descs' & Heq & Hin). injection Heq as <-.
      by exists (CategoryDescription f).
  - split; [intros H; inversion H | by intros (? & ? & _)].
Qed.

Lemma existsb_elem_of {A} (p : A -> bool) (l : list A) :
  existsb p l = true ↔ ∃ x, x ∈ l ∧ p x = true.
Proof.
  rewrite existsb_exists. split; intros (x & Hx & Hp); exists x; split; try done;
    by apply list_elem_of_In.
Qed.

Lemma existsb_false_elem_of {A} (p : A -> bool) (l : list A) :
  existsb p l = false ↔ ∀ x, x ∈ l → p x = false.
Proof.
  split.
  - intros H x Hx. destruct (p x) eqn:Hp; [| done].
    assert (existsb p l = true) by (apply existsb_elem_of; eauto). congruence.
  - intros H. destruct (existsb p l) eqn:He; [| done].
    apply existsb_elem_of in He as (x & Hx & Hp). rewrite (H x Hx) in Hp. done.
Qed.

Lemma filter_elem_of {A} (p : A -> bool) (l : list A) (x : A) :
  x ∈ List.filter p l ↔ x ∈ l ∧ p x = true.
Proof. rewrite !list_elem_of_In. apply filter_In. Qed.

Lemma filter_sublist {A} (p : A -> bool) (l : list A) : List.filter p l `sublist_of` l.
Proof.
  induction l as [| x l IH]; simpl; [constructor |].
  destruct (p x); by constructor.
Qed.

Lemma filter_all {A} (p : A -> bool) (l : list A) :
  (∀ x, x ∈ l → p x = true) → List.filter p l = l.
Proof.
  induction l as [| x l IH]; simpl; intros H; [done |].
  rewrite (H x) by constructor. f_equal. apply IH. intros y Hy. apply H. by constructor.
Qed.

Lemma filter_none {A} (p : A -> bool) (l : list A) :
  (∀ x, x ∈ l → p x = false) → List.filter p l = [].
Proof.
  induction l as [| x l IH]; simpl; intros H; [done |].
  rewrite (H x) by constructor. apply IH. intros y Hy. apply H. by constructor.
Qed.

Lemma map_lookup {A B} (f : A -> B) (l : list A) (i : nat) :
  map f l !! i = f <$> l !! i.
Proof.
  revert i. induction l as [| x l IH]; intros [| i]; simpl; try done.
Qed.

Lemma map_elem_of {A B} (f : A -> B) (l : list A) (y : B) :
  y ∈ map f l ↔ ∃ x, y = f x ∧ x ∈ l.
Proof.
  rewrite list_elem_of_In, in_map_iff. split; intros (x & H1 & H2); exists x;
    split; try done; by apply list_elem_of_In.
Qed.

Lemma find_id_None (l : list CategoryFilter.t) (i : string) :
  find (fun g => str_eq (CategoryFilter.id g) i) l = None ↔
  ∀ g, g ∈ l → CategoryFilter.id g ≠ i.
Proof.
  induction l as [| x l IH]; simpl.
  - split; [intros _ g Hg; inversion Hg | done].
  - destruct (str_eq (CategoryFilter.id x) i) eqn:E.
    + apply str_eq_true in E. split; [done |]. intros H.
      exfalso. apply (H x); [constructor | done].
    + rewrite IH. split.
      * intros H g Hg. inversion Hg; subst; [| by apply H].
        intros Heq. apply str_eq_true in Heq. congruence.
      * intros H g Hg. apply H. by constructor.
Qed.

Lemma find_id_Some (l : list CategoryFilter.t) (i : string) (g : CategoryFilter.t) :
  find (fun g => str_eq (CategoryFilter.id g) i) l = Some g →
  g ∈ l ∧ CategoryFilter.id g = i.
Proof.
  intros H. apply find_some in H as [H1 H2]. split.
  - by apply list_elem_of_In.
  - by apply str_eq_true.
Qed.

(** What a normal completion of [getMetadataDelta] returns, part by part. *)
Lemma getMetadataDelta_Normal {LC : LowerCase} (o n : BoardByExternalId) (d : Delta.t) :
  getMetadataDelta o n = Normal d →
  ∃ os ns,
    settings o = Some os ∧ settings n = Some ns ∧
    Delta.accentColor d =
      Key (if loose_neq (accentColor os) (accentColor ns) then accentColor ns
           else undefined) ∧
    Delta.tagline d =
      Key (if loose_neq (tagline o) (tagline n) then tagline n else undefined) ∧
    deleted (Delta.texts d) = map (fun t => {| id := Text.id t |}) (deletedTexts o n) ∧
    newAndUpdated (Delta.texts d) = newAndUpdatedTexts o n ∧
    deleted (Delta.categoryFilters d) =
      map (fun f => {| id := CategoryFilter.id f |}) (deletedFilters o n) ∧
    newAndUpdated (Delta.categoryFilters d) = newAndUpdatedFilters o n.
Proof.
  unfold getMetadataDelta. intros H.
  destruct (settings o) as [os |]; [| discriminate].
  destruct (settings n) as [ns |]; [| discriminate].
  injection H as <-. exists os, ns. simpl. by repeat split.
Qed.

Lemma edit_delta_computed : getMetadataDelta before_edit after_edit = Normal edit_delta.
Proof. reflexivity. Qed.

Lemma getMetadataDelta_settings {LC : LowerCase} (o n : BoardByExternalId) (os ns : Settings) :
  settings o = Some os → settings n = Some ns →
  ∃ d, getMetadataDelta o n = Normal d.
Proof. unfold getMetadataDelta. intros -> ->. eauto. Qed.

(** ** Scalar fields *)

(** C1 (as stated) does not hold: with equal accent colours and equal
    taglines (scenario 3, accent colour ["#ff5252"] on both sides) the returned
    object still has the keys [accentColor] and [tagline]; each holds
    [undefined]. *)
Lemma equal_scalars_keys_are_written :
  ∃ d, getMetadataDelta (board None (Some "#ff5252") (Some "hi"))
                        (board None (Some "#ff5252") (Some "hi")) = Normal d ∧
       Delta.accentColor d = Key undefined ∧ hasKey (Delta.accentColor d) = true ∧
       Delta.tagline d = Key undefined ∧ hasKey (Delta.tagline d) = true.
Proof. eexists. split; [reflexivity |]. by repeat split. Qed.

(** C1 (amended): the keys [accentColor] and [tagline] are always written; the
    value held is a string only if the old value differs from the new one, and
    then it is the new value; when old and new are equal the value held is
    [undefined]. *)
Theorem scalar_fields_defined_iff_changed {LC : LowerCase}
    (o n : BoardByExternalId) (os ns : Settings) (d : Delta.t) :
  settings o = Some os → settings n = Some ns →
  getMetadataDelta o n = Normal d →
  ∃ color tag,
    Delta.accentColor d = Key color ∧ Delta.tagline d = Key tag ∧
    (∀ s, color = Some s ↔ accentColor os ≠ accentColor ns ∧ accentColor ns = Some s) ∧
    (∀ s, tag = Some s ↔ tagline o ≠ tagline n ∧ tagline n = Some s) ∧
    (accentColor os = accentColor ns → color = undefined) ∧
    (tagline o = tagline n → tag = undefined).
Proof.
  intros Ho Hn Hd.
  apply getMetadataDelta_Normal in Hd as (os' & ns' & Ho' & Hn' & Hc & Ht & _).
  assert (os' = os) as -> by congruence. assert (ns' = ns) as -> by congruence.
  eexists _, _. split; [exact Hc |]. split; [exact Ht |].
  assert (∀ a b : option string,
            (∀ s, (if loose_neq a b then b else undefined) = Some s ↔ a ≠ b ∧ b = Some s)
            ∧ (a = b → (if loose_neq a b then b else undefined) = undefined)) as Hscalar.
  { intros a b. destruct (loose_neq a b) eqn:E.
    - apply loose_neq_true in E. split; [intros s; tauto | done].
    - apply loose_neq_false in E. split; [| done].
      intros s. split; [done | intros [Hne _]; contradiction]. }
  destruct (Hscalar (accentColor os) (accentColor ns)) as [Hc1 Hc2].
  destruct (Hscalar (tagline o) (tagline n)) as [Ht1 Ht2].
  split; [exact Hc1 |]. split; [exact Ht1 |]. split; assumption.
Qed.

Lemma scalar_fields_defined_iff_changed_witness :
  ∃ color tag,
    Delta.accentColor (Delta.mk (Key (Some "#00ff00")) (Key undefined)
                         {| deleted := []; newAndUpdated := [] |}
                         {| deleted := []; newAndUpdated := [] |}) = Key color ∧
    Delta.tagline (Delta.mk (Key (Some "#00ff00")) (Key undefined)
                     {| deleted := []; newAndUpdated := [] |}
                     {| deleted := []; newAndUpdated := [] |}) = Key tag ∧
    (∀ s, color = Some s ↔ Some "#ff5252" ≠ Some "#00ff00" ∧ Some "#00ff00" = Some s) ∧
    (∀ s, tag = Some s ↔ Some "hi" ≠ Some "hi" ∧ Some "hi" = Some s) ∧
    (Some "#ff5252" = Some "#00ff00" → color = undefined) ∧
    (Some "hi" = Some "hi" → tag = undefined).
Proof.
  apply (scalar_fields_defined_iff_changed (LC := asciiOnly)
           (board None (Some "#ff5252") (Some "hi"))
           (board None (Some "#00ff00") (Some "hi"))
           {| accentColor := Some "#ff5252" |} {| accentColor := Some "#00ff00" |});
    reflexivity.
Defined.

(** ** Totality *)

(** C8 (as stated) does not hold: when [settings] is missing, reading
    [settings!.accentColor] throws. *)
Lemma missing_settings_throws :
  getMetadataDelta no_settings no_settings = Throw TypeError ∧
  getMetadataDelta no_settings (board None None None) = Throw TypeError ∧
  getMetadataDelta (board None None None) no_settings = Throw TypeError.
Proof. by repeat split. Qed.

(** C8 (amended): [getMetadataDelta] returns a delta exactly when both inputs
    carry a [settings] object, and throws a TypeError when either lacks it;
    an absent [descriptions] collection is read as the empty list. *)
Theorem getMetadataDelta_total_with_settings {LC : LowerCase} (o n : BoardByExternalId) :
  ((∃ d, getMetadataDelta o n = Normal d) ↔
     is_Some (settings o) ∧ is_Some (settings n)) ∧
  (getMetadataDelta o n = Throw TypeError ↔
     settings o = None ∨ settings n = None) ∧
  (descriptions o = None → oldTexts o = [] ∧ oldCategoryFilters o = []) ∧
  (descriptions n = None → newTexts n = [] ∧ newCategoryFilters n = []) ∧
  getMetadataDelta
    {| descriptions := None; settings := settings o; tagline := tagline o |} n =
  getMetadataDelta
    {| descriptions := Some []; settings := settings o; tagline := tagline o |} n ∧
  getMetadataDelta o
    {| descriptions := None; settings := settings n; tagline := tagline n |} =
  getMetadataDelta o
    {| descriptions := Some []; settings := settings n; tagline := tagline n |}.
Proof.
  split; [| split; [| split; [| split; [| split]]]].
  - split.
    + intros [d Hd].
      apply getMetadataDelta_Normal in Hd as (os & ns & -> & -> & _). eauto.
    + intros [[os Ho] [ns Hn]]. by eapply getMetadataDelta_settings.
  - unfold getMetadataDelta. split.
    + destruct (settings o); [| by left]. destruct (settings n); [done | by right].
    + intros [-> | ->]; [done |]. by destruct (settings o).
  - unfold oldTexts, oldCategoryFilters. by intros ->.
  - unfold newTexts, newCategoryFilters. by intros ->.
  - reflexivity.
  - reflexivity.
Qed.

(** ** Top-level sections: texts and category filters *)

Section ById.
Context {A B : Type} (idA : A -> string) (idB : B -> string).

(** [olds.filter((o) => !news.some((n) => n.id == o.id))], then the
    projection to [{ id }]. *)
Lemma absent_ids_elem_of (olds : list A) (news : list B) (i : string) :
  {| id := i |} ∈
    map (fun x => {| id := idA x |})
        (List.filter (fun x => negb (existsb (fun y => str_eq (idB y) (idA x)) news))
                     olds)
  ↔ (∃ x, x ∈ olds ∧ idA x = i) ∧ ¬ (∃ y, y ∈ news ∧ idB y = i).
Proof.
  rewrite map_elem_of. split.
  - intros (x & Hi & Hx). injection Hi as ->.
    apply filter_elem_of in Hx as [Hx Hp]. apply negb_true_iff in Hp.
    split; [by exists x |]. intros (y & Hy & Heq).
    rewrite existsb_false_elem_of in Hp. specialize (Hp y Hy).
    apply str_eq_true in Heq. congruence.
  - intros [(x & Hx & <-) Hno]. exists x. split; [done |].
    apply filter_elem_of. split; [done |]. apply negb_true_iff.
    apply existsb_false_elem_of. intros y Hy.
    destruct (str_eq (idB y) (idA x)) eqn:E; [| done].
    apply str_eq_true in E. exfalso. apply Hno. by exists y.
Qed.

Lemma absent_ids_sublist (olds : list A) (news : list B) :
  map (fun x => {| id := idA x |})
      (List.filter (fun x => negb (existsb (fun y => str_eq (idB y) (idA x)) news))
                   olds)
  `sublist_of` map (fun x => {| id := idA x |}) olds.
Proof.
  induction olds as [| x olds IH]; simpl; [constructor |].
  destruct (negb _); simpl; by constructor.
Qed.

(** [olds.some((o) => o.id === i)] *)
Lemma some_id_true (olds : list A) (i : string) :
  existsb (fun x => str_eq (idA x) i) olds = true ↔ ∃ x, x ∈ olds ∧ idA x = i.
Proof.
  rewrite existsb_elem_of. split; intros (x & Hx & E); exists x; split; try done;
    by apply str_eq_true.
Qed.
End ById.

Lemma newAndUpdatedFilter_updated {LC : LowerCase} (o : BoardByExternalId) (f : CategoryFilter.t) :
  FilterUpdate.updated (newAndUpdatedFilter o f) = true ↔
  ∃ g, g ∈ oldCategoryFilters o ∧ CategoryFilter.id g = CategoryFilter.id f.
Proof.
  unfold newAndUpdatedFilter, oldFilter. simpl.
  destruct (find _ (oldCategoryFilters o)) as [g |] eqn:E.
  - apply find_id_Some in E as [Hg Hid]. split; [| done]. intros _. by exists g.
  - split; [done |]. intros (g & Hg & Hid).
    rewrite find_id_None in E. by destruct (E g Hg).
Qed.

(** C3: the deleted entries of a section are the ids that occur in the old
    state of that section and not in the new one, each as an object with the
    [id] field only, in the order of the old state. *)
Theorem deleted_ids_in_old_not_in_new {LC : LowerCase} (o n : BoardByExternalId) (d : Delta.t) :
  getMetadataDelta o n = Normal d →
  (∀ i, {| id := i |} ∈ deleted (Delta.texts d) ↔
        (∃ t, t ∈ oldTexts o ∧ Text.id t = i) ∧
        ¬ (∃ t, t ∈ newTexts n ∧ Text.id t = i)) ∧
  (∀ i, {| id := i |} ∈ deleted (Delta.categoryFilters d) ↔
        (∃ f, f ∈ oldCategoryFilters o ∧ CategoryFilter.id f = i) ∧
        ¬ (∃ f, f ∈ newCategoryFilters n ∧ CategoryFilter.id f = i)) ∧
  deleted (Delta.texts d)
    `sublist_of` map (fun t => {| id := Text.id t |}) (oldTexts o) ∧
  deleted (Delta.categoryFilters d)
    `sublist_of` map (fun f => {| id := CategoryFilter.id f |}) (oldCategoryFilters o).
Proof.
  intros Hd.
  apply getMetadataDelta_Normal in Hd as (os & ns & _ & _ & _ & _ & Ht & _ & Hf & _).
  rewrite Ht, Hf. unfold deletedTexts, deletedFilters.
  split; [| split; [| split]].
  - intros i. apply absent_ids_elem_of.
  - intros i. apply absent_ids_elem_of.
  - apply absent_ids_sublist.
  - apply absent_ids_sublist.
Qed.

Lemma deleted_ids_in_old_not_in_new_witness :
  getMetadataDelta before_edit after_edit = Normal edit_delta ∧
  ({| id := "t3" |} ∈ deleted (Delta.texts edit_delta) ↔
     (∃ t, t ∈ oldTexts before_edit ∧ Text.id t = "t3") ∧
     ¬ (∃ t, t ∈ newTexts after_edit ∧ Text.id t = "t3")).
Proof.
  split; [reflexivity |].
  destruct (deleted_ids_in_old_not_in_new (LC := asciiOnly) before_edit after_edit edit_delta eq_refl)
    as [H _].
  exact (H "t3").
Defined.

(** C2 (as stated) does not hold for category filters: the [categories] field
    of an entry is overwritten with the nested delta, so the category list of
    the new item is not retained.  Two new states that differ in the
    categories of a filter yield the same entry. *)
Lemma filter_categories_not_retained :
  ∃ d1 d2,
    getMetadataDelta (board (Some [CategoryDescription (gore ["a"])]) None None)
                     (board (Some [CategoryDescription (gore ["a"])]) None None)
      = Normal d1 ∧
    getMetadataDelta (board (Some [CategoryDescription (gore ["a"])]) None None)
                     (board (Some [CategoryDescription (gore ["A"])]) None None)
      = Normal d2 ∧
    newAndUpdated (Delta.categoryFilters d1) =
      [FilterUpdate.mk "f2" 4 "Gore" category_filter None
         (Some {| deleted_categories := []; new_categories := [] |}) true] ∧
    newAndUpdated (Delta.categoryFilters d2) = newAndUpdated (Delta.categoryFilters d1) ∧
    newCategoryFilters (board (Some [CategoryDescription (gore ["a"])]) None None) ≠
    newCategoryFilters (board (Some [CategoryDescription (gore ["A"])]) None None).
Proof.
  eexists _, _. split; [reflexivity |]. split; [reflexivity |].
  split; [reflexivity |]. split; [reflexivity |]. discriminate.
Qed.

(** C2 (amended): [newAndUpdated] has one entry per item of the new state, in
    the order of the new state.  A text entry retains every field of its item;
    a category-filter entry retains [id], [index], [title], [type] and
    [description] (its [categories] field holds the nested delta instead).
    An entry is tagged [updated] exactly when the old state of the same
    section has an item with its id. *)
Theorem newAndUpdated_follows_new_state {LC : LowerCase} (o n : BoardByExternalId) (d : Delta.t) :
  getMetadataDelta o n = Normal d →
  map TextUpdate.item (newAndUpdated (Delta.texts d)) = newTexts n ∧
  (∀ e, e ∈ newAndUpdated (Delta.texts d) →
        (TextUpdate.updated e = true ↔
         ∃ t, t ∈ oldTexts o ∧ Text.id t = TextUpdate.id e)) ∧
  Forall2 (fun e f =>
             FilterUpdate.id e = CategoryFilter.id f ∧
             FilterUpdate.index e = CategoryFilter.index f ∧
             FilterUpdate.title e = CategoryFilter.title f ∧
             FilterUpdate.type e = category_filter ∧
             FilterUpdate.description e = CategoryFilter.description f)
          (newAndUpdated (Delta.categoryFilters d)) (newCategoryFilters n) ∧
  (∀ e, e ∈ newAndUpdated (Delta.categoryFilters d) →
        (FilterUpdate.updated e = true ↔
         ∃ g, g ∈ oldCategoryFilters o ∧ CategoryFilter.id g = FilterUpdate.id e)).
Proof.
  intros Hd.
  apply getMetadataDelta_Normal in Hd as (os & ns & _ & _ & _ & _ & _ & Ht & _ & Hf).
  rewrite Ht, Hf. unfold newAndUpdatedTexts, newAndUpdatedFilters.
  split; [| split; [| split]].
  - induction (newTexts n) as [| [i k t c] l IH]; simpl; [done |]. by rewrite IH.
  - intros e He. apply map_elem_of in He as (t & -> & _). simpl.
    apply some_id_true.
  - induction (newCategoryFilters n) as [| f l IH]; simpl; constructor; by auto.
  - intros e He. apply map_elem_of in He as (f & -> & _).
    apply newAndUpdatedFilter_updated.
Qed.

Lemma newAndUpdated_follows_new_state_witness :
  getMetadataDelta before_edit after_edit = Normal edit_delta ∧
  map TextUpdate.item (newAndUpdated (Delta.texts edit_delta)) = [t1; t2].
Proof.
  split; [reflexivity |].
  destruct (newAndUpdated_follows_new_state (LC := asciiOnly) before_edit after_edit edit_delta eq_refl)
    as [H _].
  exact H.
Defined.

(** ** Nested category deltas *)

(** Strings of ASCII characters that differ only in the case of letters
    have the same lower-casing. *)
Lemma sameLetter_lower (a b : ascii) :
  sameLetter a b = true → asciiLowerCase_char a = asciiLowerCase_char b.
Proof.
  assert (∀ c, asciiLowerCase_char c =
               ascii_of_nat (let n := nat_of_ascii c in
                             if (65 <=? n)%nat && (n <=? 90)%nat
                             then (n + 32)%nat else n)) as Hnat.
  { intros c. unfold asciiLowerCase_char. cbv zeta.
    destruct (_ && _); [done | by rewrite ascii_nat_embedding]. }
  rewrite !Hnat. unfold sameLetter. cbv zeta.
  clear Hnat. generalize (nat_of_ascii a) (nat_of_ascii b). intros x y Hsame. f_equal.
  destruct (65 <=? x)%nat eqn:X1; destruct (x <=? 90)%nat eqn:X2;
    destruct (65 <=? y)%nat eqn:Y1; destruct (y <=? 90)%nat eqn:Y2;
    destruct (x =? y)%nat eqn:E; destruct (y =? x + 32)%nat eqn:E1;
    destruct (x =? y + 32)%nat eqn:E2; cbn [andb orb] in *; try discriminate;
    repeat match goal with
           | H : (_ =? _)%nat = true |- _ => apply Nat.eqb_eq in H
           | H : (_ =? _)%nat = false |- _ => apply Nat.eqb_neq in H
           | H : (_ <=? _)%nat = true |- _ => apply Nat.leb_le in H
           | H : (_ <=? _)%nat = false |- _ => apply Nat.leb_gt in H
           end; lia.
Qed.

Lemma sameLetter_ascii (a b : ascii) :
  sameLetter a b = true →
  (nat_of_ascii a <? 128)%nat = true → (nat_of_ascii b <? 128)%nat = true.
Proof.
  unfold sameLetter. generalize (nat_of_ascii a) (nat_of_ascii b).
  intros x y Hsame Hx. apply Nat.ltb_lt in Hx. apply Nat.ltb_lt.
  repeat (apply orb_true_iff in Hsame as [Hsame | Hsame]);
    repeat (apply andb_true_iff in Hsame as [Hsame ?]);
    repeat match goal with
           | H : (_ =? _)%nat = true |- _ => apply Nat.eqb_eq in H
           | H : (_ <=? _)%nat = true |- _ => apply Nat.leb_le in H
           end; lia.
Qed.

Lemma differOnlyInCase_lower (s1 s2 : string) :
  differOnlyInCase s1 s2 = true → asciiLowerCase s1 = asciiLowerCase s2.
Proof.
  revert s2. induction s1 as [| a r1 IH]; intros [| b r2]; simpl; try done.
  intros Hd. apply andb_true_iff in Hd as [Hab Hr].
  by rewrite (sameLetter_lower a b Hab), (IH r2 Hr).
Qed.

Lemma differOnlyInCase_ascii (s1 s2 : string) :
  differOnlyInCase s1 s2 = true → is_ascii s1 = true → is_ascii s2 = true.
Proof.
  revert s2. induction s1 as [| a r1 IH]; intros [| b r2]; simpl; try done.
  intros Hd Ha. apply andb_true_iff in Hd as [Hab Hr].
  apply andb_true_iff in Ha as [Ha Hr1]. apply andb_true_iff. split.
  - by apply (sameLetter_ascii a b).
  - by apply IH.
Qed.

(** Whatever else [toLowerCase] folds, it folds the case of ASCII letters. *)
Lemma toLowerCase_folds_ascii_case {LC : LowerCase} (s1 s2 : string) :
  is_ascii s1 = true → differOnlyInCase s1 s2 = true →
  toLowerCase s1 = toLowerCase s2.
Proof.
  intros Ha Hd.
  rewrite (toLowerCase_ascii s1 Ha).
  rewrite (toLowerCase_ascii s2 (differOnlyInCase_ascii s1 s2 Hd Ha)).
  by apply differOnlyInCase_lower.
Qed.

(** On states whose categories are ASCII, every lower-casing computes the
    delta that the ASCII one computes: running the model with [asciiOnly] on
    such states is running it with [String.prototype.toLowerCase]. *)
Lemma existsb_pointwise_in {A} (p q : A -> bool) (l : list A) :
  (∀ x, In x l → p x = q x) → existsb p l = existsb q l.
Proof.
  induction l as [| x l IH]; simpl; intros Hpq; [done |].
  rewrite (Hpq x) by by left. rewrite IH; [done |]. intros y Hy. apply Hpq. by right.
Qed.

Lemma getMetadataDelta_ascii {LC : LowerCase} (o n : BoardByExternalId) :
  asciiCategories o → asciiCategories n →
  getMetadataDelta (LC := LC) o n = getMetadataDelta (LC := asciiOnly) o n.
Proof.
  intros Ho Hn. unfold getMetadataDelta.
  destruct (settings o) as [os |]; [| done].
  destruct (settings n) as [ns |]; [| done].
  do 2 f_equal. unfold newAndUpdatedFilters. f_equal.
  apply map_ext_in. intros f Hf.
  unfold newAndUpdatedFilter, deletedCategories, newCategories.
  destruct (oldFilter o f) as [g |] eqn:Hg; [| done].
  assert (In g (newCategoryFilters o)) as Hgin.
  { unfold oldFilter in Hg. by apply find_some in Hg as [Hgin _]. }
  assert (∀ c c', In c (CategoryFilter.categories g) →
                  In c' (CategoryFilter.categories f) →
                  str_eq (toLowerCase (LowerCase := LC) c) (toLowerCase (LowerCase := LC) c') =
                  str_eq (asciiLowerCase c) (asciiLowerCase c')) as Hsame.
  { intros c c' Hc Hc'.
    by rewrite (toLowerCase_ascii c (Ho g c Hgin Hc)),
               (toLowerCase_ascii c' (Hn f c' Hf Hc')). }
  do 3 f_equal.
  - apply filter_ext_in. intros c Hc. f_equal.
    apply existsb_pointwise_in. intros c' Hc'. by apply Hsame.
  - apply filter_ext_in. intros c' Hc'. f_equal.
    apply existsb_pointwise_in. intros c Hc. by apply Hsame.
Qed.

Lemma no_match_true (p : string -> bool) (l : list string) :
  negb (existsb p l) = true ↔ ∀ c, c ∈ l → p c = false.
Proof. rewrite negb_true_iff. apply existsb_false_elem_of. Qed.

Lemma deletedCategories_elem_of {LC : LowerCase} (o : BoardByExternalId) (f g : CategoryFilter.t)
    (c : string) :
  oldFilter o f = Some g →
  c ∈ deletedCategories o f ↔
  c ∈ CategoryFilter.categories g ∧
  ∀ c', c' ∈ CategoryFilter.categories f → toLowerCase c ≠ toLowerCase c'.
Proof.
  intros Hg. unfold deletedCategories. rewrite Hg, filter_elem_of, no_match_true.
  split; intros [Hc H]; (split; [done |]); intros c' Hc'; specialize (H c' Hc').
  - intros E. apply str_eq_true in E. congruence.
  - destruct (str_eq _ _) eqn:E; [| done]. apply str_eq_true in E. contradiction.
Qed.

Lemma newCategories_elem_of {LC : LowerCase} (o : BoardByExternalId) (f g : CategoryFilter.t)
    (c : string) :
  oldFilter o f = Some g →
  c ∈ newCategories o f ↔
  c ∈ CategoryFilter.categories f ∧
  ∀ c', c' ∈ CategoryFilter.categories g → toLowerCase c' ≠ toLowerCase c.
Proof.
  intros Hg. unfold newCategories. rewrite Hg, filter_elem_of, no_match_true.
  split; intros [Hc H]; (split; [done |]); intros c' Hc'; specialize (H c' Hc').
  - intros E. apply str_eq_true in E. congruence.
  - destruct (str_eq _ _) eqn:E; [| done]. apply str_eq_true in E. contradiction.
Qed.

Lemma oldFilter_None (o : BoardByExternalId) (f : CategoryFilter.t) :
  oldFilter o f = None ↔
  ∀ g, g ∈ oldCategoryFilters o → CategoryFilter.id g ≠ CategoryFilter.id f.
Proof. apply find_id_None. Qed.

(** The entry at the position of a new filter is the one computed from it. *)
Lemma newAndUpdatedFilters_lookup {LC : LowerCase} (o n : BoardByExternalId) (d : Delta.t)
    (i : nat) (f : CategoryFilter.t) :
  getMetadataDelta o n = Normal d →
  newCategoryFilters n !! i = Some f →
  newAndUpdated (Delta.categoryFilters d) !! i = Some (newAndUpdatedFilter o f).
Proof.
  intros Hd Hf.
  apply getMetadataDelta_Normal in Hd as (os & ns & _ & _ & _ & _ & _ & _ & _ & ->).
  unfold newAndUpdatedFilters. by rewrite map_lookup, Hf.
Qed.

Lemma newAndUpdatedFilters_elem_of {LC : LowerCase} (o n : BoardByExternalId) (d : Delta.t)
    (e : FilterUpdate.t) :
  getMetadataDelta o n = Normal d →
  e ∈ newAndUpdated (Delta.categoryFilters d) →
  ∃ f, f ∈ newCategoryFilters n ∧ e = newAndUpdatedFilter o f.
Proof.
  intros Hd He.
  apply getMetadataDelta_Normal in Hd as (os & ns & _ & _ & _ & _ & _ & _ & _ & Hf).
  rewrite Hf in He. apply map_elem_of in He as (f & -> & Hin). eauto.
Qed.

(** C4: for a category filter of the new state whose id no old category
    filter has, the entry at its position has an empty nested [deleted] list,
    a nested [new] list holding every category of the filter, and
    [updated = false]. *)
Theorem filter_absent_from_old_all_new {LC : LowerCase}
    (o n : BoardByExternalId) (d : Delta.t) (i : nat) (f : CategoryFilter.t) :
  getMetadataDelta o n = Normal d →
  newCategoryFilters n !! i = Some f →
  (∀ g, g ∈ oldCategoryFilters o → CategoryFilter.id g ≠ CategoryFilter.id f) →
  ∃ e, newAndUpdated (Delta.categoryFilters d) !! i = Some e ∧
       FilterUpdate.id e = CategoryFilter.id f ∧
       FilterUpdate.categories e =
         Some {| deleted_categories := [];
                 new_categories := CategoryFilter.categories f |} ∧
       FilterUpdate.updated e = false.
Proof.
  intros Hd Hf Habs. apply oldFilter_None in Habs.
  exists (newAndUpdatedFilter o f).
  split; [by eapply newAndUpdatedFilters_lookup |].
  unfold newAndUpdatedFilter, deletedCategories, newCategories. simpl.
  by rewrite Habs.
Qed.

Lemma filter_absent_from_old_all_new_witness :
  newCategoryFilters after_edit !! 0%nat = Some parity ∧
  ∃ e, newAndUpdated (Delta.categoryFilters edit_delta) !! 0%nat = Some e ∧
       FilterUpdate.id e = "f1" ∧
       FilterUpdate.categories e =
         Some {| deleted_categories := []; new_categories := ["odd"; "even"] |} ∧
       FilterUpdate.updated e = false.
Proof.
  split; [reflexivity |].
  apply (filter_absent_from_old_all_new (LC := asciiOnly) before_edit after_edit edit_delta 0 parity).
  - reflexivity.
  - reflexivity.
  - apply oldFilter_None. reflexivity.
Defined.



(** C6: in each section no id is both among the deleted entries and among
    the [newAndUpdated] entries, and in every nested category delta no
    category of the [deleted] list has the lower-casing of a category of the
    [new] list; in particular no category of ASCII characters in the [deleted]
    list differs only in the case of letters from a category of the [new]
    list. *)
Theorem deleted_and_new_are_disjoint {LC : LowerCase} (o n : BoardByExternalId) (d : Delta.t) :
  getMetadataDelta o n = Normal d →
  (∀ i e, {| id := i |} ∈ deleted (Delta.texts d) →
          e ∈ newAndUpdated (Delta.texts d) → TextUpdate.id e ≠ i) ∧
  (∀ i e, {| id := i |} ∈ deleted (Delta.categoryFilters d) →
          e ∈ newAndUpdated (Delta.categoryFilters d) → FilterUpdate.id e ≠ i) ∧
  (∀ e cd c c', e ∈ newAndUpdated (Delta.categoryFilters d) →
                FilterUpdate.categories e = Some cd →
                c ∈ deleted_categories cd → c' ∈ new_categories cd →
                toLowerCase c ≠ toLowerCase c' ∧
                (is_ascii c = true → differOnlyInCase c c' = false)).
Proof.
  intros Hd. pose proof Hd as Hparts.
  apply getMetadataDelta_Normal in Hparts
    as (os & ns & _ & _ & _ & _ & Hdt & Hnt & Hdf & _).
  split; [| split].
  - intros i e Hi He Heq. rewrite Hdt in Hi. rewrite Hnt in He.
    unfold deletedTexts in Hi. apply absent_ids_elem_of in Hi as [_ Hno].
    apply map_elem_of in He as (t & -> & Ht). apply Hno. by exists t.
  - intros i e Hi He Heq. rewrite Hdf in Hi.
    unfold deletedFilters in Hi. apply absent_ids_elem_of in Hi as [_ Hno].
    destruct (newAndUpdatedFilters_elem_of o n d e Hd He) as (f & Hf & ->).
    apply Hno. by exists f.
  - intros e cd c c' He Hcd Hc Hc'.
    assert (toLowerCase c ≠ toLowerCase c') as Hne.
    { destruct (newAndUpdatedFilters_elem_of o n d e Hd He) as (f & Hf & ->).
      unfold newAndUpdatedFilter in Hcd.
      cbn [FilterUpdate.categories] in Hcd. injection Hcd as <-.
      cbn [deleted_categories new_categories] in Hc, Hc'.
      destruct (oldFilter o f) as [g |] eqn:Hg.
      + destruct (proj1 (deletedCategories_elem_of o f g c Hg) Hc) as [_ Hno].
        destruct (proj1 (newCategories_elem_of o f g c' Hg) Hc') as [Hin _].
        by apply Hno.
      + unfold deletedCategories in Hc. rewrite Hg in Hc. inversion Hc. }
    split; [exact Hne |].
    intros Hascii. destruct (differOnlyInCase c c') eqn:Hcase; [| done].
    exfalso. apply Hne. by apply toLowerCase_folds_ascii_case.
Qed.

Lemma deleted_and_new_are_disjoint_witness :
  getMetadataDelta before_edit after_edit = Normal edit_delta ∧
  toLowerCase "guts" ≠ toLowerCase "bones" ∧
  (is_ascii "guts" = true → differOnlyInCase "guts" "bones" = false).
Proof.
  split; [reflexivity |].
  destruct (deleted_and_new_are_disjoint (LC := asciiOnly)
              before_edit after_edit edit_delta eq_refl)
    as (_ & _ & H).
  apply (H (FilterUpdate.mk "f2" 4 "Gore" category_filter None
              (Some {| deleted_categories := ["guts"]; new_categories := ["bones"] |})
              true)
           {| deleted_categories := ["guts"]; new_categories := ["bones"] |}).
  - simpl. right. left.
  - reflexivity.
  - simpl. left.
  - simpl. left.
Defined.



(** C10: every category-filter entry of [newAndUpdated] has a non-null
    [categories] object with a [deleted] and a [new] list; for a filter present
    in both states the [deleted] list is a sublist of the old filter's
    categories and the [new] list a sublist of the new filter's categories, so
    each entry is spelled as in the state it comes from. *)
Theorem nested_delta_keeps_original_casing {LC : LowerCase} (o n : BoardByExternalId) (d : Delta.t) :
  getMetadataDelta o n = Normal d →
  (∀ e, e ∈ newAndUpdated (Delta.categoryFilters d) →
        ∃ cd, FilterUpdate.categories e = Some cd) ∧
  (∀ i f g, newCategoryFilters n !! i = Some f → oldFilter o f = Some g →
            ∃ e cd,
              newAndUpdated (Delta.categoryFilters d) !! i = Some e ∧
              FilterUpdate.categories e = Some cd ∧
              deleted_categories cd `sublist_of` CategoryFilter.categories g ∧
              new_categories cd `sublist_of` CategoryFilter.categories f).
Proof.
  intros Hd. split.
  - intros e He.
    destruct (newAndUpdatedFilters_elem_of o n d e Hd He) as (f & _ & ->).
    simpl. eauto.
  - intros i f g Hf Hg. eexists _, _.
    split; [by eapply newAndUpdatedFilters_lookup |].
    split; [reflexivity |]. simpl.
    unfold deletedCategories, newCategories. rewrite Hg.
    split; apply filter_sublist.
Qed.

Lemma nested_delta_keeps_original_casing_witness :
  getMetadataDelta (board (Some [CategoryDescription (gore ["Blood"; "Guts"])]) None None)
                   (board (Some [CategoryDescription (gore ["blood"; "BONES"])]) None None)
  = Normal (Delta.mk (Key undefined) (Key undefined)
              {| deleted := []; newAndUpdated := [] |}
              {| deleted := [];
                 newAndUpdated :=
                   [FilterUpdate.mk "f2" 4 "Gore" category_filter None
                      (Some {| deleted_categories := ["Guts"];
                               new_categories := ["BONES"] |})
                      true] |}) ∧
  ∃ e cd,
    [FilterUpdate.mk "f2" 4 "Gore" category_filter None
       (Some {| deleted_categories := ["Guts"]; new_categories := ["BONES"] |})
       true] !! 0%nat = Some e ∧
    FilterUpdate.categories e = Some cd ∧
    deleted_categories cd `sublist_of` ["Blood"; "Guts"] ∧
    new_categories cd `sublist_of` ["blood"; "BONES"].
Proof.
  split; [reflexivity |].
  destruct (nested_delta_keeps_original_casing (LC := asciiOnly)
              (board (Some [CategoryDescription (gore ["Blood"; "Guts"])]) None None)
              (board (Some [CategoryDescription (gore ["blood"; "BONES"])]) None None)
              _ eq_refl) as [_ H].
  exact (H 0%nat (gore ["blood"; "BONES"]) (gore ["Blood"; "Guts"]) eq_refl eq_refl).
Defined.

(** ** The board-metadata cache *)

Section CacheUse.
Context {Board Parsed Value : Type}.
Variable BOARD_METADATA : string.
Variable getBoardByExternalId : option string -> string -> option Board.
Variable processBoardsSummary : list Board -> bool -> bool -> list (gmap string Value).
Variable processBoardMetadata : Board -> bool -> bool -> gmap string Value.
Variable stringify : gmap string Value -> string.
Variable JSON_parse : string -> Completion Parsed.

Let run :=
  getBoardMetadataByExternalId Board Parsed Value BOARD_METADATA getBoardByExternalId
    processBoardsSummary processBoardMetadata stringify JSON_parse.

(** The path from the storage query on only ever appends to the log of
    cache operations. *)
Lemma fetchAndRender_ops
    (boardExternalId : string) (firebaseId : option string) (hasBoardAccess : bool)
    (c : CacheState) :
  ∃ later,
    ops (fetchAndRender Board Parsed Value BOARD_METADATA getBoardByExternalId
           processBoardsSummary processBoardMetadata stringify
           boardExternalId firebaseId hasBoardAccess c).2 = (ops c ++ later)%list.
Proof.
  unfold fetchAndRender.
  destruct (getBoardByExternalId _ _); simpl.
  - destruct (negb (truthy firebaseId)); simpl; [eauto |].
    exists []. by rewrite app_nil_r.
  - exists []. by rewrite app_nil_r.
Qed.

(** With a falsy [firebaseId] the first thing the function does is a read
    of the cache. *)
Lemma cache_consulted_when_firebaseId_falsy
    (boardExternalId : string) (firebaseId : option string) (hasBoardAccess : bool)
    (c : CacheState) :
  truthy firebaseId = false →
  ∃ later, ops (run boardExternalId firebaseId hasBoardAccess c).2 =
           (ops c ++ HGet BOARD_METADATA boardExternalId :: later)%list.
Proof.
  intros Hf. unfold run, getBoardMetadataByExternalId. rewrite Hf.
  cbn [negb hGet].
  set (c1 := {| store := store c;
                ops := ops c ++ [HGet BOARD_METADATA boardExternalId] |}).
  assert (∃ later,
            ops (fetchAndRender Board Parsed Value BOARD_METADATA
                   getBoardByExternalId processBoardsSummary processBoardMetadata
                   stringify boardExternalId firebaseId hasBoardAccess c1).2 =
            (ops c ++ HGet BOARD_METADATA boardExternalId :: later)%list) as Hmiss.
  { destruct (fetchAndRender_ops boardExternalId firebaseId hasBoardAccess c1)
      as [later ->].
    exists later. subst c1. simpl. by rewrite <- app_assoc. }
  destruct (store c !! BOARD_METADATA ≫= _) as [cached |]; [| exact Hmiss].
  destruct (truthy (Some cached)); [| exact Hmiss].
  exists []. by destruct (JSON_parse cached).
Qed.

(** C9: a call that carries an authenticated identity, that is a
    [firebaseId] the function itself takes as logged in ([!!firebaseId]),
    neither reads nor writes the cache: the state of the cache, its log of
    operations included, is the one before the call, and the result is the
    rendering of what the storage query returns. *)
Theorem cache_bypassed_when_firebaseId_truthy
    (boardExternalId : string) (firebaseId : option string) (hasBoardAccess : bool)
    (c : CacheState) :
  truthy firebaseId = true →
  run boardExternalId firebaseId hasBoardAccess c =
  (match getBoardByExternalId firebaseId boardExternalId with
   | None => Normal Null
   | Some board =>
       Normal (Rendered
                 (processBoardMetadata board true hasBoardAccess
                  ∪ default ∅ (processBoardsSummary [board] true hasBoardAccess
                                 !! 0%nat)))
   end, c).
Proof.
  intros Ht. unfold run, getBoardMetadataByExternalId, fetchAndRender.
  rewrite Ht. simpl. by destruct (getBoardByExternalId _ _).
Qed.
End CacheUse.

Lemma cache_bypassed_when_firebaseId_truthy_witness :
  truthy (Some "uid-1") = true ∧
  run_one_board "b1" (Some "uid-1") true warm_cache =
    (Normal (Rendered ({[ "tagline" := "welcome back" ]} ∪ {[ "slug" := "gore" ]})),
     warm_cache).
Proof.
  split; [reflexivity |].
  apply (cache_bypassed_when_firebaseId_truthy "BOARD_METADATA" one_board summary_of
           metadata_of demo_stringify demo_JSON_parse
           "b1" (Some "uid-1") true warm_cache).
  reflexivity.
Defined.

(** * Further properties of [getMetadataDelta] *)

Lemma str_eq_refl (a : string) : str_eq a a = true.
Proof. by apply str_eq_true. Qed.

Lemma str_eq_sym (a b : string) : str_eq a b = str_eq b a.
Proof. unfold str_eq. apply String.eqb_sym. Qed.

Lemma find_is_Some {A} (p : A -> bool) (l : list A) :
  (match find p l with Some _ => true | None => false end) = existsb p l.
Proof. induction l as [| x l IH]; simpl; [done |]. by destruct (p x). Qed.

Lemma filter_map_commute {A B C} (f : A -> B) (g : B -> C) (q : B -> bool)
    (l : list A) :
  map g (List.filter q (map f l)) =
  map (fun x => g (f x)) (List.filter (fun x => q (f x)) l).
Proof.
  induction l as [| x l IH]; simpl; [done |].
  destruct (q (f x)); simpl; by rewrite IH.
Qed.


(** The first filter with a given id is the only one when ids are unique. *)
Lemma find_id_NoDup (l : list CategoryFilter.t) (f : CategoryFilter.t) :
  NoDup (map CategoryFilter.id l) → f ∈ l →
  find (fun g => str_eq (CategoryFilter.id g) (CategoryFilter.id f)) l = Some f.
Proof.
  induction l as [| x l IH]; simpl; intros Hnd Hf; [inversion Hf |].
  apply NoDup_cons in Hnd as [Hx Hnd].
  destruct (str_eq (CategoryFilter.id x) (CategoryFilter.id f)) eqn:E.
  - apply str_eq_true in E. inversion Hf; subst; [done |].
    exfalso. apply Hx. rewrite E. apply map_elem_of. by exists f.
  - inversion Hf; subst; [by rewrite str_eq_refl in E | by apply IH].
Qed.

(** X1: comparing a state with itself reports nothing: both scalar fields
    hold [undefined], nothing is deleted, and every entry is tagged
    [updated]. *)
Theorem identical_states_report_no_change {LC : LowerCase} (m : BoardByExternalId) (d : Delta.t) :
  getMetadataDelta m m = Normal d →
  Delta.accentColor d = Key undefined ∧
  Delta.tagline d = Key undefined ∧
  deleted (Delta.texts d) = [] ∧
  deleted (Delta.categoryFilters d) = [] ∧
  Forall (fun e => TextUpdate.updated e = true) (newAndUpdated (Delta.texts d)) ∧
  Forall (fun e => FilterUpdate.updated e = true)
         (newAndUpdated (Delta.categoryFilters d)).
Proof.
  intros Hd.
  apply getMetadataDelta_Normal in Hd
    as (os & ns & Ho & Hn & -> & -> & -> & -> & -> & ->).
  assert (ns = os) as -> by congruence.
  assert (∀ a : option string, loose_neq a a = false) as Hsame
    by (intros a; by apply loose_neq_false).
  rewrite !Hsame.
  split; [done |]. split; [done |].
  split; [| split; [| split]].
  - unfold deletedTexts. rewrite filter_none; [done |].
    intros t Ht. apply negb_false_iff, existsb_elem_of.
    exists t. split; [exact Ht | apply str_eq_refl].
  - unfold deletedFilters. rewrite filter_none; [done |].
    intros f Hf. apply negb_false_iff, existsb_elem_of.
    exists f. split; [exact Hf | apply str_eq_refl].
  - apply Forall_forall. intros e He.
    apply map_elem_of in He as (t & -> & Ht). simpl.
    apply existsb_elem_of. exists t. split; [exact Ht | apply str_eq_refl].
  - apply Forall_forall. intros e He.
    apply map_elem_of in He as (f & -> & Hf).
    apply newAndUpdatedFilter_updated. by exists f.
Qed.

Lemma identical_states_report_no_change_witness :
  getMetadataDelta before_edit before_edit =
    Normal (Delta.mk (Key undefined) (Key undefined)
              {| deleted := [];
                 newAndUpdated :=
                   [TextUpdate.mk "t1" 1 "Rules" "Be kind" true;
                    TextUpdate.mk "t3" 5 "Old news" "Gone" true] |}
              {| deleted := [];
                 newAndUpdated :=
                   [FilterUpdate.mk "f2" 4 "Gore" category_filter None
                      (Some {| deleted_categories := []; new_categories := [] |}) true;
                    FilterUpdate.mk "f3" 6 "Legacy" category_filter None
                      (Some {| deleted_categories := []; new_categories := [] |}) true]
              |}) ∧
  Forall (fun e => TextUpdate.updated e = true)
         [TextUpdate.mk "t1" 1 "Rules" "Be kind" true;
          TextUpdate.mk "t3" 5 "Old news" "Gone" true].
Proof.
  split; [reflexivity |].
  destruct (identical_states_report_no_change (LC := asciiOnly) before_edit _ eq_refl)
    as (_ & _ & _ & _ & H & _).
  exact H.
Defined.

(** X2: comparing a state with itself, when the ids of its category filters
    are pairwise distinct, gives every category filter an empty nested
    delta. *)
Theorem identical_states_empty_nested_deltas {LC : LowerCase} (m : BoardByExternalId) (d : Delta.t) :
  getMetadataDelta m m = Normal d →
  NoDup (map CategoryFilter.id (newCategoryFilters m)) →
  Forall (fun e => FilterUpdate.categories e =
                   Some {| deleted_categories := []; new_categories := [] |})
         (newAndUpdated (Delta.categoryFilters d)).
Proof.
  intros Hd Hnd. apply Forall_forall. intros e He.
  destruct (newAndUpdatedFilters_elem_of m m d e Hd He) as (f & Hf & ->).
  assert (oldFilter m f = Some f) as Hfound by by apply find_id_NoDup.
  unfold newAndUpdatedFilter, deletedCategories, newCategories.
  cbn [FilterUpdate.categories]. rewrite Hfound.
  assert (List.filter
            (fun c => negb (existsb (fun c' => str_eq (toLowerCase c) (toLowerCase c'))
                                    (CategoryFilter.categories f)))
            (CategoryFilter.categories f) = []) as ->.
  { apply filter_none. intros c Hc. apply negb_false_iff, existsb_elem_of.
    exists c. split; [exact Hc | apply str_eq_refl]. }
  assert (List.filter
            (fun c => negb (existsb (fun c' => str_eq (toLowerCase c') (toLowerCase c))
                                    (CategoryFilter.categories f)))
            (CategoryFilter.categories f) = []) as ->.
  { apply filter_none. intros c Hc. apply negb_false_iff, existsb_elem_of.
    exists c. split; [exact Hc | apply str_eq_refl]. }
  done.
Qed.

Lemma identical_states_empty_nested_deltas_witness :
  NoDup (map CategoryFilter.id (newCategoryFilters before_edit)) ∧
  Forall (fun e => FilterUpdate.categories e =
                   Some {| deleted_categories := []; new_categories := [] |})
         [FilterUpdate.mk "f2" 4 "Gore" category_filter None
            (Some {| deleted_categories := []; new_categories := [] |}) true;
          FilterUpdate.mk "f3" 6 "Legacy" category_filter None
            (Some {| deleted_categories := []; new_categories := [] |}) true].
Proof.
  assert (NoDup (map CategoryFilter.id (newCategoryFilters before_edit))) as Hnd.
  { apply NoDup_ListNoDup. simpl.
    constructor; [simpl; intros [H | []]; discriminate |].
    constructor; [simpl; tauto | constructor]. }
  split; [exact Hnd |].
  exact (identical_states_empty_nested_deltas (LC := asciiOnly) before_edit _ eq_refl Hnd).
Defined.

(** X3: against an old state without descriptions (absent or empty) nothing
    is deleted, no entry is tagged [updated], and every category of every new
    filter is reported as new. *)
Theorem empty_old_state_everything_new {LC : LowerCase} (o n : BoardByExternalId) (d : Delta.t) :
  getMetadataDelta o n = Normal d →
  descriptions o = None ∨ descriptions o = Some [] →
  deleted (Delta.texts d) = [] ∧
  deleted (Delta.categoryFilters d) = [] ∧
  Forall (fun e => TextUpdate.updated e = false) (newAndUpdated (Delta.texts d)) ∧
  Forall2 (fun e f =>
             FilterUpdate.updated e = false ∧
             FilterUpdate.categories e =
               Some {| deleted_categories := [];
                       new_categories := CategoryFilter.categories f |})
          (newAndUpdated (Delta.categoryFilters d)) (newCategoryFilters n).
Proof.
  intros Hd Hempty.
  apply getMetadataDelta_Normal in Hd
    as (os & ns & _ & _ & _ & _ & -> & -> & -> & ->).
  assert (oldTexts o = [] ∧ oldCategoryFilters o = []) as [Ht Hf].
  { unfold oldTexts, oldCategoryFilters. by destruct Hempty as [-> | ->]. }
  unfold deletedTexts, deletedFilters, newAndUpdatedTexts, newAndUpdatedFilters.
  rewrite Ht, Hf. simpl.
  split; [done |]. split; [done |]. split.
  - apply Forall_forall. intros e He. by apply map_elem_of in He as (t & -> & _).
  - induction (newCategoryFilters n) as [| f l IH]; simpl; constructor; [| exact IH].
    unfold newAndUpdatedFilter, deletedCategories, newCategories, oldFilter.
    by rewrite Hf.
Qed.

Lemma empty_old_state_everything_new_witness :
  getMetadataDelta (board None None None) after_edit =
    Normal (Delta.mk (Key (Some "#ff5252")) (Key (Some "hello"))
              {| deleted := [];
                 newAndUpdated :=
                   [TextUpdate.mk "t1" 1 "Rules" "Be kind" false;
                    TextUpdate.mk "t2" 2 "About" "A board" false] |}
              {| deleted := [];
                 newAndUpdated :=
                   [FilterUpdate.mk "f1" 3 "Parity" category_filter None
                      (Some {| deleted_categories := [];
                               new_categories := ["odd"; "even"] |}) false;
                    FilterUpdate.mk "f2" 4 "Gore" category_filter None
                      (Some {| deleted_categories := [];
                               new_categories := ["blood"; "bones"] |}) false] |}) ∧
  Forall (fun e => TextUpdate.updated e = false)
         [TextUpdate.mk "t1" 1 "Rules" "Be kind" false;
          TextUpdate.mk "t2" 2 "About" "A board" false].
Proof.
  split; [reflexivity |].
  destruct (empty_old_state_everything_new (LC := asciiOnly) (board None None None) after_edit _
              eq_refl (or_introl eq_refl)) as (_ & _ & H & _).
  exact H.
Defined.

(** X4: against a new state without descriptions (absent or empty) both
    [newAndUpdated] lists are empty and every old item is deleted, in the
    order of the old state. *)
Theorem empty_new_state_everything_deleted {LC : LowerCase} (o n : BoardByExternalId) (d : Delta.t) :
  getMetadataDelta o n = Normal d →
  descriptions n = None ∨ descriptions n = Some [] →
  newAndUpdated (Delta.texts d) = [] ∧
  newAndUpdated (Delta.categoryFilters d) = [] ∧
  deleted (Delta.texts d) = map (fun t => {| id := Text.id t |}) (oldTexts o) ∧
  deleted (Delta.categoryFilters d) =
    map (fun f => {| id := CategoryFilter.id f |}) (oldCategoryFilters o).
Proof.
  intros Hd Hempty.
  apply getMetadataDelta_Normal in Hd
    as (os & ns & _ & _ & _ & _ & -> & -> & -> & ->).
  assert (newTexts n = [] ∧ newCategoryFilters n = []) as [Ht Hf].
  { unfold newTexts, newCategoryFilters. by destruct Hempty as [-> | ->]. }
  unfold deletedTexts, deletedFilters, newAndUpdatedTexts, newAndUpdatedFilters.
  rewrite Ht, Hf. simpl.
  split; [done |]. split; [done |].
  split; f_equal; by apply filter_all.
Qed.

Lemma empty_new_state_everything_deleted_witness :
  getMetadataDelta before_edit (board (Some []) None None) =
    Normal (Delta.mk (Key undefined) (Key undefined)
              {| deleted := [{| id := "t1" |}; {| id := "t3" |}]; newAndUpdated := [] |}
              {| deleted := [{| id := "f2" |}; {| id := "f3" |}]; newAndUpdated := [] |}) ∧
  [{| id := "t1" |}; {| id := "t3" |}] =
    map (fun t => {| id := Text.id t |}) (oldTexts before_edit).
Proof.
  split; [reflexivity |].
  destruct (empty_new_state_everything_deleted (LC := asciiOnly) before_edit (board (Some []) None None)
              _ eq_refl (or_intror eq_refl)) as (_ & _ & H & _).
  exact H.
Defined.

(** X5: every item of the old state is accounted for: its id is among the
    deleted entries of its section, or a [newAndUpdated] entry of its section
    carries its id and is tagged [updated]. *)
Theorem old_items_deleted_or_updated {LC : LowerCase} (o n : BoardByExternalId) (d : Delta.t) :
  getMetadataDelta o n = Normal d →
  (∀ t, t ∈ oldTexts o →
        {| id := Text.id t |} ∈ deleted (Delta.texts d) ∨
        ∃ e, e ∈ newAndUpdated (Delta.texts d) ∧
             TextUpdate.id e = Text.id t ∧ TextUpdate.updated e = true) ∧
  (∀ g, g ∈ oldCategoryFilters o →
        {| id := CategoryFilter.id g |} ∈ deleted (Delta.categoryFilters d) ∨
        ∃ e, e ∈ newAndUpdated (Delta.categoryFilters d) ∧
             FilterUpdate.id e = CategoryFilter.id g ∧ FilterUpdate.updated e = true).
Proof.
  intros Hd.
  apply getMetadataDelta_Normal in Hd
    as (os & ns & _ & _ & _ & _ & -> & -> & -> & ->).
  split.
  - intros t Ht.
    destruct (existsb (fun t' => str_eq (Text.id t') (Text.id t)) (newTexts n)) eqn:E.
    + right. apply existsb_elem_of in E as (t' & Ht' & Heq). apply str_eq_true in Heq.
      eexists. split; [apply map_elem_of; by exists t' |]. simpl.
      split; [done |]. apply some_id_true. exists t. by split.
    + left. apply map_elem_of. exists t. split; [done |].
      apply filter_elem_of. split; [done |]. by rewrite E.
  - intros g Hg.
    destruct (existsb (fun f => str_eq (CategoryFilter.id f) (CategoryFilter.id g))
                      (newCategoryFilters n)) eqn:E.
    + right. apply existsb_elem_of in E as (f & Hf & Heq). apply str_eq_true in Heq.
      exists (newAndUpdatedFilter o f).
      split; [apply map_elem_of; by exists f |].
      split; [done |]. apply newAndUpdatedFilter_updated. exists g. by split.
    + left. apply map_elem_of. exists g. split; [done |].
      apply filter_elem_of. split; [done |]. by rewrite E.
Qed.

Lemma old_items_deleted_or_updated_witness :
  getMetadataDelta before_edit after_edit = Normal edit_delta ∧
  ({| id := "t3" |} ∈ deleted (Delta.texts edit_delta) ∨
   ∃ e, e ∈ newAndUpdated (Delta.texts edit_delta) ∧
        TextUpdate.id e = "t3" ∧ TextUpdate.updated e = true).
Proof.
  split; [reflexivity |].
  destruct (old_items_deleted_or_updated (LC := asciiOnly) before_edit after_edit edit_delta eq_refl)
    as [H _].
  apply (H t3). simpl. right. left.
Defined.

(** The rank of a selected element among the selected ones. *)
Lemma omap_lookup_rank {A B} (f : A -> option B) (l : list A) (k : nat) (x : A) (y : B) :
  l !! k = Some x → f x = Some y →
  omap f l !! length (omap f (take k l)) = Some y.
Proof.
  revert k. induction l as [| a l IH]; intros [| k]; simpl; try done.
  - intros [= ->] Hy. unfold omap in *. simpl. by rewrite Hy.
  - intros Hk Hy. specialize (IH k Hk Hy). unfold omap in *. simpl.
    by destruct (f a).
Qed.

Lemma omap_length_split (descs : list BoardDescription) :
  (length (omap isText descs) + length (omap isCategoryFilter descs))%nat =
  length descs.
Proof.
  induction descs as [| [t | f] descs IH]; simpl in *; [done | |];
    unfold omap in IH; lia.
Qed.

(** X6: every description of the new state, a text or a category filter,
    yields exactly one [newAndUpdated] entry, in the section of its type and
    at the rank the description has among the new descriptions of that type;
    the two lists hold nothing else, their lengths adding up to the number of
    new descriptions. *)
Theorem one_entry_per_new_description {LC : LowerCase}
    (o n : BoardByExternalId) (d : Delta.t) (descs : list BoardDescription) :
  getMetadataDelta o n = Normal d →
  descriptions n = Some descs →
  (∀ k t, descs !! k = Some (TextDescription t) →
          ∃ e, newAndUpdated (Delta.texts d)
                 !! length (omap isText (take k descs)) = Some e ∧
               TextUpdate.item e = t) ∧
  (∀ k f, descs !! k = Some (CategoryDescription f) →
          ∃ e, newAndUpdated (Delta.categoryFilters d)
                 !! length (omap isCategoryFilter (take k descs)) = Some e ∧
               FilterUpdate.id e = CategoryFilter.id f ∧
               FilterUpdate.index e = CategoryFilter.index f ∧
               FilterUpdate.title e = CategoryFilter.title f ∧
               FilterUpdate.type e = category_filter ∧
               FilterUpdate.description e = CategoryFilter.description f) ∧
  (length (newAndUpdated (Delta.texts d)) +
   length (newAndUpdated (Delta.categoryFilters d)))%nat = length descs.
Proof.
  intros Hd Hdescs.
  apply getMetadataDelta_Normal in Hd
    as (os & ns & _ & _ & _ & _ & _ & -> & _ & ->).
  unfold newAndUpdatedTexts, newAndUpdatedFilters, newTexts, newCategoryFilters.
  rewrite Hdescs. split; [| split].
  - intros k t Hk. rewrite map_lookup.
    rewrite (omap_lookup_rank isText descs k (TextDescription t) t Hk eq_refl).
    simpl. eexists. split; [reflexivity |]. by destruct t.
  - intros k f Hk. rewrite map_lookup.
    rewrite (omap_lookup_rank isCategoryFilter descs k (CategoryDescription f) f Hk
               eq_refl).
    simpl. eexists. split; [reflexivity |]. by repeat split.
  - rewrite !length_map. apply omap_length_split.
Qed.

Lemma one_entry_per_new_description_witness :
  getMetadataDelta before_edit after_edit = Normal edit_delta ∧
  ∃ e, newAndUpdated (Delta.categoryFilters edit_delta)
         !! length (omap isCategoryFilter
                      (take 3 [TextDescription t1; TextDescription t2;
                               CategoryDescription parity;
                               CategoryDescription (gore ["blood"; "bones"])]))
         = Some e ∧
       FilterUpdate.id e = "f2" ∧
       FilterUpdate.index e = 4%Z ∧
       FilterUpdate.title e = "Gore" ∧
       FilterUpdate.type e = category_filter ∧
       FilterUpdate.description e = None.
Proof.
  split; [reflexivity |].
  destruct (one_entry_per_new_description (LC := asciiOnly)
              before_edit after_edit edit_delta _ eq_refl eq_refl) as (_ & H & _).
  exact (H 3%nat (gore ["blood"; "bones"]) eq_refl).
Defined.

(** X7: what an edit deletes is what the reverse edit adds: the deleted
    entries of the delta from [o] to [n] are, in order, the ids of the
    [newAndUpdated] entries of the delta from [n] to [o] that are not tagged
    [updated]. *)
Theorem deleted_is_new_of_reverse_edit {LC : LowerCase} (o n : BoardByExternalId) (d d' : Delta.t) :
  getMetadataDelta o n = Normal d →
  getMetadataDelta n o = Normal d' →
  deleted (Delta.texts d) =
    map (fun e => {| id := TextUpdate.id e |})
        (List.filter (fun e => negb (TextUpdate.updated e))
                     (newAndUpdated (Delta.texts d'))) ∧
  deleted (Delta.categoryFilters d) =
    map (fun e => {| id := FilterUpdate.id e |})
        (List.filter (fun e => negb (FilterUpdate.updated e))
                     (newAndUpdated (Delta.categoryFilters d'))).
Proof.
  intros Hd Hd'.
  apply getMetadataDelta_Normal in Hd
    as (os & ns & _ & _ & _ & _ & -> & _ & -> & _).
  apply getMetadataDelta_Normal in Hd'
    as (os' & ns' & _ & _ & _ & _ & _ & -> & _ & ->).
  unfold newAndUpdatedTexts, newAndUpdatedFilters. rewrite !filter_map_commute.
  split.
  - reflexivity.
  - unfold deletedFilters. simpl. f_equal.
    apply filter_ext. intros g. unfold oldFilter. by rewrite find_is_Some.
Qed.

Lemma deleted_is_new_of_reverse_edit_witness :
  getMetadataDelta before_edit after_edit = Normal edit_delta ∧
  getMetadataDelta after_edit before_edit =
    Normal (Delta.mk (Key undefined) (Key (Some "hi"))
              {| deleted := [{| id := "t2" |}];
                 newAndUpdated :=
                   [TextUpdate.mk "t1" 1 "Rules" "Be kind" true;
                    TextUpdate.mk "t3" 5 "Old news" "Gone" false] |}
              {| deleted := [{| id := "f1" |}];
                 newAndUpdated :=
                   [FilterUpdate.mk "f2" 4 "Gore" category_filter None
                      (Some {| deleted_categories := ["bones"];
                               new_categories := ["guts"] |}) true;
                    FilterUpdate.mk "f3" 6 "Legacy" category_filter None
                      (Some {| deleted_categories := [];
                               new_categories := ["retired"] |}) false] |}) ∧
  deleted (Delta.texts edit_delta) =
    map (fun e => {| id := TextUpdate.id e |})
        (List.filter (fun e => negb (TextUpdate.updated e))
           [TextUpdate.mk "t1" 1 "Rules" "Be kind" true;
            TextUpdate.mk "t3" 5 "Old news" "Gone" false]).
Proof.
  split; [reflexivity |]. split; [reflexivity |].
  destruct (deleted_is_new_of_reverse_edit (LC := asciiOnly) before_edit after_edit edit_delta _
              eq_refl eq_refl) as [H _].
  exact H.
Defined.

Lemma existsb_pointwise {A} (p q : A -> bool) (l : list A) :
  (∀ x, p x = q x) → existsb p l = existsb q l.
Proof. intros H. induction l as [| x l IH]; simpl; [done |]. by rewrite H, IH. Qed.

Lemma deletedCategories_reverse {LC : LowerCase} (o n : BoardByExternalId) (f g : CategoryFilter.t) :
  oldFilter o f = Some g → oldFilter n g = Some f →
  deletedCategories o f = newCategories n g.
Proof.
  intros Hg Hf. unfold deletedCategories, newCategories. rewrite Hg, Hf.
  apply filter_ext. intros c. f_equal.
  apply existsb_pointwise. intros c'. apply str_eq_sym.
Qed.

(** X8: inside a category filter present in both states, the categories an
    edit deletes are the ones the reverse edit adds, and conversely. *)
Theorem nested_delta_of_reverse_edit {LC : LowerCase}
    (o n : BoardByExternalId) (d d' : Delta.t) (i j : nat) (f g : CategoryFilter.t) :
  getMetadataDelta o n = Normal d →
  getMetadataDelta n o = Normal d' →
  newCategoryFilters n !! i = Some f →
  newCategoryFilters o !! j = Some g →
  oldFilter o f = Some g →
  oldFilter n g = Some f →
  ∃ e e' cd cd',
    newAndUpdated (Delta.categoryFilters d) !! i = Some e ∧
    newAndUpdated (Delta.categoryFilters d') !! j = Some e' ∧
    FilterUpdate.categories e = Some cd ∧
    FilterUpdate.categories e' = Some cd' ∧
    deleted_categories cd = new_categories cd' ∧
    new_categories cd = deleted_categories cd'.
Proof.
  intros Hd Hd' Hi Hj Hg Hf. eexists _, _, _, _.
  split; [by eapply newAndUpdatedFilters_lookup |].
  split; [by eapply newAndUpdatedFilters_lookup |].
  split; [reflexivity |]. split; [reflexivity |]. simpl.
  split; [by apply deletedCategories_reverse |].
  symmetry. by apply deletedCategories_reverse.
Qed.

Lemma nested_delta_of_reverse_edit_witness :
  oldFilter before_edit (gore ["blood"; "bones"]) = Some (gore ["Blood"; "guts"]) ∧
  oldFilter after_edit (gore ["Blood"; "guts"]) = Some (gore ["blood"; "bones"]) ∧
  ∃ e e' cd cd',
    newAndUpdated (Delta.categoryFilters edit_delta) !! 1%nat = Some e ∧
    [FilterUpdate.mk "f2" 4 "Gore" category_filter None
       (Some {| deleted_categories := ["bones"]; new_categories := ["guts"] |}) true;
     FilterUpdate.mk "f3" 6 "Legacy" category_filter None
       (Some {| deleted_categories := []; new_categories := ["retired"] |}) false]
      !! 0%nat = Some e' ∧
    FilterUpdate.categories e = Some cd ∧
    FilterUpdate.categories e' = Some cd' ∧
    deleted_categories cd = new_categories cd' ∧
    new_categories cd = deleted_categories cd'.
Proof.
  split; [reflexivity |]. split; [reflexivity |].
  exact (nested_delta_of_reverse_edit (LC := asciiOnly) before_edit after_edit edit_delta _ 1 0
           (gore ["blood"; "bones"]) (gore ["Blood"; "guts"])
           eq_refl eq_refl eq_refl eq_refl eq_refl eq_refl).
Defined.



(** X10: a section that keeps its id but changes from a text to a category
    filter is reported twice: its id is deleted from the texts, and the
    category filters get an entry for it that is not tagged [updated] and
    lists all its categories as new. *)
Theorem retyped_section_is_deleted_and_added {LC : LowerCase}
    (o n : BoardByExternalId) (d : Delta.t) (od nd : list BoardDescription)
    (t : Text.t) (f : CategoryFilter.t) :
  getMetadataDelta o n = Normal d →
  descriptions o = Some od → descriptions n = Some nd →
  TextDescription t ∈ od → CategoryDescription f ∈ nd →
  CategoryFilter.id f = Text.id t →
  (∀ t', TextDescription t' ∈ nd → Text.id t' ≠ Text.id t) →
  (∀ g, CategoryDescription g ∈ od → CategoryFilter.id g ≠ Text.id t) →
  {| id := Text.id t |} ∈ deleted (Delta.texts d) ∧
  ∃ e, e ∈ newAndUpdated (Delta.categoryFilters d) ∧
       FilterUpdate.id e = Text.id t ∧
       FilterUpdate.updated e = false ∧
       FilterUpdate.categories e =
         Some {| deleted_categories := [];
                 new_categories := CategoryFilter.categories f |}.
Proof.
  intros Hd Hod Hnd Ht Hf Hid Hnotext Hnofilter.
  apply getMetadataDelta_Normal in Hd
    as (os & ns & _ & _ & _ & _ & -> & _ & _ & ->).
  split.
  - unfold deletedTexts. apply absent_ids_elem_of. split.
    + exists t. split; [| done].
      change (oldTexts o) with (newTexts o). apply newTexts_elem_of. eauto.
    + intros (t' & Ht' & Heq). apply newTexts_elem_of in Ht' as (nd' & Hnd' & Hin).
      assert (nd' = nd) as -> by congruence. by apply (Hnotext t').
  - assert (oldFilter o f = None) as Hnone.
    { apply oldFilter_None. intros g Hg.
      change (oldCategoryFilters o) with (newCategoryFilters o) in Hg.
      apply newCategoryFilters_elem_of in Hg as (od' & Hod' & Hin).
      assert (od' = od) as -> by congruence. rewrite Hid. by apply Hnofilter. }
    exists (newAndUpdatedFilter o f). split.
    + apply map_elem_of. exists f. split; [done |].
      apply newCategoryFilters_elem_of. eauto.
    + unfold newAndUpdatedFilter, deletedCategories, newCategories. simpl.
      by rewrite Hnone.
Qed.

Lemma retyped_section_is_deleted_and_added_witness :
  getMetadataDelta
    (board (Some [TextDescription (Text.mk "s1" 1 "Tags" "see below")]) None None)
    (board (Some [CategoryDescription (CategoryFilter.mk "s1" 1 "Tags" None ["a"])])
           None None) =
  Normal (Delta.mk (Key undefined) (Key undefined)
            {| deleted := [{| id := "s1" |}]; newAndUpdated := [] |}
            {| deleted := [];
               newAndUpdated :=
                 [FilterUpdate.mk "s1" 1 "Tags" category_filter None
                    (Some {| deleted_categories := []; new_categories := ["a"] |})
                    false] |}) ∧
  {| id := "s1" |} ∈ [{| id := "s1" |}] ∧
  ∃ e, e ∈ [FilterUpdate.mk "s1" 1 "Tags" category_filter None
              (Some {| deleted_categories := []; new_categories := ["a"] |}) false] ∧
       FilterUpdate.id e = "s1" ∧
       FilterUpdate.updated e = false ∧
       FilterUpdate.categories e =
         Some {| deleted_categories := []; new_categories := ["a"] |}.
Proof.
  split; [reflexivity |].
  apply (retyped_section_is_deleted_and_added (LC := asciiOnly)
           (board (Some [TextDescription (Text.mk "s1" 1 "Tags" "see below")]) None None)
           (board (Some [CategoryDescription (CategoryFilter.mk "s1" 1 "Tags" None ["a"])])
                  None None)
           _ _ _ (Text.mk "s1" 1 "Tags" "see below")
           (CategoryFilter.mk "s1" 1 "Tags" None ["a"])
           eq_refl eq_refl eq_refl).
  - left.
  - left.
  - reflexivity.
  - intros t' Ht'. apply list_elem_of_In in Ht'. simpl in Ht'.
    destruct Ht' as [H | []]. discriminate.
  - intros g Hg. apply list_elem_of_In in Hg. simpl in Hg.
    destruct Hg as [H | []]. discriminate.
Defined.

(** * Further properties of [getBoardMetadataByExternalId] *)

(** Reading a field of a hash of the store, without logging. *)
Lemma hSet_lookup_same (key field value : string) (c : CacheState) :
  store (hSet key field value c) !! key ≫= (.!! field) = Some value.
Proof. unfold hSet. simpl. rewrite lookup_insert_eq. simpl. apply lookup_insert_eq. Qed.

Lemma hSet_lookup_other (key field value key' field' : string) (c : CacheState) :
  (key', field') ≠ (key, field) →
  store (hSet key field value c) !! key' ≫= (.!! field') =
  store c !! key' ≫= (.!! field').
Proof.
  intros Hne. unfold hSet. simpl.
  destruct (decide (key' = key)) as [-> |].
  - rewrite lookup_insert_eq. simpl.
    rewrite lookup_insert_ne by congruence.
    by destruct (store c !! key).
  - by rewrite lookup_insert_ne.
Qed.

Section CacheFacts.
Context {Board Parsed Value : Type}.
Variable BOARD_METADATA : string.
Variable getBoardByExternalId : option string -> string -> option Board.
Variable processBoardsSummary : list Board -> bool -> bool -> list (gmap string Value).
Variable processBoardMetadata : Board -> bool -> bool -> gmap string Value.
Variable stringify : gmap string Value -> string.
Variable JSON_parse : string -> Completion Parsed.

Let call :=
  getBoardMetadataByExternalId Board Parsed Value BOARD_METADATA getBoardByExternalId
    processBoardsSummary processBoardMetadata stringify JSON_parse.

(** What the function renders for a board: [{...boardSummary[0],
    ...boardMetadata}]. *)
Let rendering (board : Board) (isLoggedIn hasBoardAccess : bool) : gmap string Value :=
  processBoardMetadata board isLoggedIn hasBoardAccess
  ∪ default ∅ (processBoardsSummary [board] isLoggedIn hasBoardAccess !! 0%nat).

(** X11: an anonymous call that finds a non-empty entry in the cache settles
    with what [JSON.parse] makes of the entry, a value or a thrown error,
    whatever the storage query would return; the call reads the cache once and
    does not write it. *)
Theorem anonymous_hit_served_from_cache
    (boardExternalId : string) (firebaseId : option string) (hasBoardAccess : bool)
    (c : CacheState) (cached : string) :
  truthy firebaseId = false →
  store c !! BOARD_METADATA ≫= (.!! boardExternalId) = Some cached →
  cached ≠ "" →
  call boardExternalId firebaseId hasBoardAccess c =
  (match JSON_parse cached with
   | Normal v => Normal (ParsedFromCache v)
   | Throw e => Throw e
   end,
   {| store := store c; ops := ops c ++ [HGet BOARD_METADATA boardExternalId] |}).
Proof.
  intros Hf Hc Hne. unfold call, getBoardMetadataByExternalId, hGet.
  rewrite Hf, Hc. simpl.
  destruct (String.eqb cached "") eqn:E; [by apply String.eqb_eq in E |].
  simpl. by destruct (JSON_parse cached).
Qed.

(** The run of an anonymous call that misses the cache and finds the
    board. *)
Lemma anonymous_miss_run
    (boardExternalId : string) (firebaseId : option string) (hasBoardAccess : bool)
    (c : CacheState) (board : Board) :
  truthy firebaseId = false →
  truthy (store c !! BOARD_METADATA ≫= (.!! boardExternalId)) = false →
  getBoardByExternalId firebaseId boardExternalId = Some board →
  call boardExternalId firebaseId hasBoardAccess c =
  (Normal (Rendered (rendering board false hasBoardAccess)),
   hSet BOARD_METADATA boardExternalId
     (stringify (rendering board false hasBoardAccess))
     {| store := store c; ops := ops c ++ [HGet BOARD_METADATA boardExternalId] |}).
Proof.
  intros Hf Hmiss Hb.
  assert (call boardExternalId firebaseId hasBoardAccess c =
          fetchAndRender Board Parsed Value BOARD_METADATA getBoardByExternalId
            processBoardsSummary processBoardMetadata stringify
            boardExternalId firebaseId hasBoardAccess
            {| store := store c;
               ops := ops c ++ [HGet BOARD_METADATA boardExternalId] |}) as ->.
  { unfold call, getBoardMetadataByExternalId, hGet. rewrite Hf. simpl.
    destruct (store c !! BOARD_METADATA ≫= _) as [cached |]; [| done].
    by rewrite Hmiss. }
  unfold fetchAndRender, rendering. by rewrite Hb, Hf.
Qed.

(** X12: an anonymous call that misses the cache (no entry, or an empty
    one) and finds the board renders it as for a logged-out reader, reads the
    cache once and writes the serialized rendering under the board's id. *)
Theorem anonymous_miss_fills_cache
    (boardExternalId : string) (firebaseId : option string) (hasBoardAccess : bool)
    (c : CacheState) (board : Board) :
  truthy firebaseId = false →
  truthy (store c !! BOARD_METADATA ≫= (.!! boardExternalId)) = false →
  getBoardByExternalId firebaseId boardExternalId = Some board →
  (call boardExternalId firebaseId hasBoardAccess c).1 =
    Normal (Rendered (rendering board false hasBoardAccess)) ∧
  store (call boardExternalId firebaseId hasBoardAccess c).2
    !! BOARD_METADATA ≫= (.!! boardExternalId) =
    Some (stringify (rendering board false hasBoardAccess)) ∧
  ops (call boardExternalId firebaseId hasBoardAccess c).2 =
    (ops c ++ [HGet BOARD_METADATA boardExternalId;
               HSet BOARD_METADATA boardExternalId
                 (stringify (rendering board false hasBoardAccess))])%list.
Proof.
  intros Hf Hmiss Hb.
  rewrite (anonymous_miss_run boardExternalId firebaseId hasBoardAccess c board)
    by done.
  cbn [fst snd]. split; [done |]. split.
  - apply hSet_lookup_same.
  - unfold hSet. cbn [ops]. by rewrite <- app_assoc.
Qed.

(** X13: when the storage has no such board the call settles with [null]
    and leaves the contents of the cache as they were. *)
Theorem board_not_found_is_not_cached
    (boardExternalId : string) (firebaseId : option string) (hasBoardAccess : bool)
    (c : CacheState) :
  getBoardByExternalId firebaseId boardExternalId = None →
  truthy firebaseId = true ∨
  truthy (store c !! BOARD_METADATA ≫= (.!! boardExternalId)) = false →
  (call boardExternalId firebaseId hasBoardAccess c).1 = Normal Null ∧
  store (call boardExternalId firebaseId hasBoardAccess c).2 = store c.
Proof.
  intros Hb Hpath. unfold call, getBoardMetadataByExternalId, fetchAndRender, hGet.
  rewrite Hb. destruct (truthy firebaseId) eqn:Hf; simpl; [done |].
  destruct Hpath as [? | Hmiss]; [done |].
  destruct (store c !! BOARD_METADATA ≫= _) as [cached |]; [| done].
  by rewrite Hmiss.
Qed.

(** X14: whatever the call does, every field of the cache other than the
    board's own entry keeps its value. *)
Theorem other_cache_entries_untouched
    (boardExternalId : string) (firebaseId : option string) (hasBoardAccess : bool)
    (c : CacheState) (key field : string) :
  (key, field) ≠ (BOARD_METADATA, boardExternalId) →
  store (call boardExternalId firebaseId hasBoardAccess c).2 !! key ≫= (.!! field) =
  store c !! key ≫= (.!! field).
Proof.
  intros Hne.
  assert (∀ c0, store (fetchAndRender Board Parsed Value BOARD_METADATA
                         getBoardByExternalId processBoardsSummary
                         processBoardMetadata stringify
                         boardExternalId firebaseId hasBoardAccess c0).2
                  !! key ≫= (.!! field) = store c0 !! key ≫= (.!! field)) as Hfetch.
  { intros c0. unfold fetchAndRender.
    destruct (getBoardByExternalId _ _); [| done].
    destruct (negb (truthy firebaseId)); [| done].
    cbn [snd]. by apply hSet_lookup_other. }
  unfold call, getBoardMetadataByExternalId, hGet.
  destruct (negb (truthy firebaseId)); [| apply Hfetch].
  destruct (store c !! BOARD_METADATA ≫= _) as [cached |]; [| by rewrite Hfetch].
  destruct (truthy (Some cached)); [| by rewrite Hfetch].
  by destruct (JSON_parse cached).
Qed.

(** X15: after an anonymous call has filled the cache, a later anonymous
    call for the same board is answered from the cache with the rendering made
    for the first caller, whatever its own [hasBoardAccess] and whatever the
    storage holds by then. *)
Theorem second_anonymous_call_reuses_first_rendering
    (boardExternalId : string) (firebaseId firebaseId' : option string)
    (hasBoardAccess hasBoardAccess' : bool) (c : CacheState) (board : Board) :
  truthy firebaseId = false →
  truthy firebaseId' = false →
  truthy (store c !! BOARD_METADATA ≫= (.!! boardExternalId)) = false →
  getBoardByExternalId firebaseId boardExternalId = Some board →
  stringify (rendering board false hasBoardAccess) ≠ "" →
  (call boardExternalId firebaseId' hasBoardAccess'
     (call boardExternalId firebaseId hasBoardAccess c).2).1 =
  match JSON_parse (stringify (rendering board false hasBoardAccess)) with
  | Normal v => Normal (ParsedFromCache v)
  | Throw e => Throw e
  end.
Proof.
  intros Hf Hf' Hmiss Hb Hne.
  rewrite (anonymous_miss_run boardExternalId firebaseId hasBoardAccess c board)
    by done.
  cbn [snd]. unfold call, getBoardMetadataByExternalId, hGet.
  rewrite Hf'. cbn [negb]. rewrite hSet_lookup_same. simpl.
  destruct (String.eqb _ "") eqn:E; [by apply String.eqb_eq in E |].
  simpl. by destruct (JSON_parse _).
Qed.

(** X16: in a freshly rendered result a property of the board metadata
    wins over the property of the same name of the board summary. *)
Theorem metadata_overrides_summary
    (boardExternalId : string) (firebaseId : option string) (hasBoardAccess : bool)
    (c : CacheState) (m : gmap string Value) :
  (call boardExternalId firebaseId hasBoardAccess c).1 = Normal (Rendered m) →
  ∃ board,
    getBoardByExternalId firebaseId boardExternalId = Some board ∧
    ∀ k, m !! k =
         match processBoardMetadata board (truthy firebaseId) hasBoardAccess !! k with
         | Some v => Some v
         | None =>
             default ∅ (processBoardsSummary [board] (truthy firebaseId)
                          hasBoardAccess !! 0%nat) !! k
         end.
Proof.
  assert (∀ c0, (fetchAndRender Board Parsed Value BOARD_METADATA
                   getBoardByExternalId processBoardsSummary processBoardMetadata
                   stringify boardExternalId firebaseId hasBoardAccess c0).1
                = Normal (Rendered m) →
          ∃ board,
            getBoardByExternalId firebaseId boardExternalId = Some board ∧
            ∀ k, m !! k =
                 match processBoardMetadata board (truthy firebaseId) hasBoardAccess
                       !! k with
                 | Some v => Some v
                 | None =>
                     default ∅ (processBoardsSummary [board] (truthy firebaseId)
                                  hasBoardAccess !! 0%nat) !! k
                 end) as Hfetch.
  { intros c0. unfold fetchAndRender.
    destruct (getBoardByExternalId _ _) as [board |]; [| done].
    cbn [fst]. intros [= <-]. exists board. split; [done |].
    intros k. rewrite lookup_union.
    destruct (processBoardMetadata _ _ _ !! k);
      by destruct (default ∅ _ !! k). }
  unfold call, getBoardMetadataByExternalId, hGet.
  destruct (negb (truthy firebaseId)); [| apply Hfetch].
  destruct (store c !! BOARD_METADATA ≫= _) as [cached |]; [| apply Hfetch].
  destruct (truthy (Some cached)); [| apply Hfetch].
  by destruct (JSON_parse cached).
Qed.
End CacheFacts.

Lemma anonymous_hit_served_from_cache_witness :
  truthy None = false ∧
  run_one_board "b1" None false warm_cache =
    (Normal (ParsedFromCache "{}"),
     {| store := store warm_cache; ops := [HGet "BOARD_METADATA" "b1"] |}).
Proof.
  split; [reflexivity |].
  apply (anonymous_hit_served_from_cache "BOARD_METADATA" one_board summary_of
           metadata_of demo_stringify demo_JSON_parse
           "b1" None false warm_cache "{}").
  - reflexivity.
  - vm_compute. reflexivity.
  - discriminate.
Defined.

(** An entry that is not JSON makes the anonymous call fail, although the
    storage has the board. *)
Example corrupt_entry_is_not_bypassed :
  run_one_board "b1" None false corrupt_cache =
    (Throw SyntaxError,
     {| store := store corrupt_cache; ops := [HGet "BOARD_METADATA" "b1"] |}).
Proof. vm_compute. reflexivity. Qed.

Lemma anonymous_miss_fills_cache_witness :
  truthy None = false ∧
  (run_one_board "b1" None true cold_cache).1 =
    Normal (Rendered ({[ "tagline" := "welcome" ]} ∪ {[ "slug" := "gore" ]})) ∧
  store (run_one_board "b1" None true cold_cache).2
    !! "BOARD_METADATA" ≫= (.!! "b1") = Some "{}" ∧
  ops (run_one_board "b1" None true cold_cache).2 =
    [HGet "BOARD_METADATA" "b1"; HSet "BOARD_METADATA" "b1" "{}"].
Proof.
  split; [reflexivity |].
  apply (anonymous_miss_fills_cache "BOARD_METADATA" one_board summary_of
           metadata_of demo_stringify demo_JSON_parse
           "b1" None true cold_cache tt).
  - reflexivity.
  - vm_compute. reflexivity.
  - reflexivity.
Defined.

Lemma board_not_found_is_not_cached_witness :
  one_board None "nowhere" = None ∧
  (run_one_board "nowhere" None true warm_cache).1 = Normal Null ∧
  store (run_one_board "nowhere" None true warm_cache).2 = store warm_cache.
Proof.
  split; [reflexivity |].
  apply (board_not_found_is_not_cached "BOARD_METADATA" one_board summary_of
           metadata_of demo_stringify demo_JSON_parse
           "nowhere" None true warm_cache).
  - reflexivity.
  - right. vm_compute. reflexivity.
Defined.

Lemma other_cache_entries_untouched_witness :
  ("BOARD_METADATA", "b2") ≠ ("BOARD_METADATA", "b1") ∧
  store (run_one_board "b1" None true cold_cache).2
    !! "BOARD_METADATA" ≫= (.!! "b2") =
  store cold_cache !! "BOARD_METADATA" ≫= (.!! "b2").
Proof.
  split; [discriminate |].
  apply (other_cache_entries_untouched "BOARD_METADATA" one_board summary_of
           metadata_of demo_stringify demo_JSON_parse
           "b1" None true cold_cache "BOARD_METADATA" "b2").
  discriminate.
Defined.

Lemma second_anonymous_call_reuses_first_rendering_witness :
  truthy None = false ∧ truthy (Some "") = false ∧
  (run_one_board "b1" (Some "") false
     (run_one_board "b1" None true cold_cache).2).1 =
  Normal (ParsedFromCache "{}").
Proof.
  split; [reflexivity |]. split; [reflexivity |].
  apply (second_anonymous_call_reuses_first_rendering "BOARD_METADATA" one_board
           summary_of metadata_of demo_stringify demo_JSON_parse
           "b1" None (Some "") true false cold_cache tt).
  - reflexivity.
  - reflexivity.
  - vm_compute. reflexivity.
  - reflexivity.
  - discriminate.
Defined.

Lemma metadata_overrides_summary_witness :
  (run_one_board "b1" (Some "uid-1") true warm_cache).1 =
    Normal (Rendered ({[ "tagline" := "welcome back" ]} ∪ {[ "slug" := "gore" ]})) ∧
  ∃ board,
    one_board (Some "uid-1") "b1" = Some board ∧
    ∀ k, ({[ "tagline" := "welcome back" ]} ∪ {[ "slug" := "gore" ]}
            : gmap string string) !! k =
         match metadata_of board (truthy (Some "uid-1")) true !! k with
         | Some v => Some v
         | None =>
             default ∅ (summary_of [board] (truthy (Some "uid-1")) true !! 0%nat) !! k
         end.
Proof.
  split; [reflexivity |].
  apply (metadata_overrides_summary "BOARD_METADATA" one_board summary_of
           metadata_of demo_stringify demo_JSON_parse
           "b1" (Some "uid-1") true warm_cache).
  reflexivity.
Defined.

(** * Properties of the posts routes *)

Section RouteFacts.
Context {Json Db Permission DbPost DbComment TagsDelta ServerPost ServerComment : Type}.
Variable js_truthy : Json -> bool.
Variable postNewContribution :
  Db -> ContributionArgs Json -> option (DbPost * string) * Db.
Variable postNewComment : Db -> CommentArgs Json -> option DbComment * Db.
Variable postNewCommentChain :
  Db -> CommentChainArgs Json -> option (list DbComment) * Db.
Variable getUserPermissionsForPost : Db -> string -> string -> option (list Permission).
Variable getPostFromStringId : Db -> string -> string -> DbPost.
Variable updatePostTags : Db -> string -> string -> TagsDelta -> option DbPost * Db.
Variable content_warnings index_tags category_tags whisper_tags : DbPost -> option Json.
Variable makeServerPost : DbPost -> ServerPost.
Variable makeServerComment : DbComment -> ServerComment.
Variable ensureNoIdentityLeakage : ServerPost + ServerComment -> bool.
Variable getTagsDelta : Tags Json -> Tags Json -> TagsDelta.
Variable canDoTagsEdit : TagsDelta -> list Permission -> bool.
Variable parent_thread_id post_id secret_identity : ServerPost -> Json.
Variable server_category_tags : ServerPost -> option Json.

Let contributeRoute :=
  contribute Json Db DbPost ServerPost ServerComment js_truthy postNewContribution
    makeServerPost ensureNoIdentityLeakage parent_thread_id post_id secret_identity
    server_category_tags.
Let commentRoute :=
  comment Json Db DbComment ServerPost ServerComment js_truthy postNewComment
    makeServerComment ensureNoIdentityLeakage.
Let commentChainRoute :=
  commentChain Json Db DbComment ServerPost ServerComment js_truthy
    postNewCommentChain makeServerComment ensureNoIdentityLeakage.
Let editRoute :=
  edit Json Db Permission DbPost TagsDelta ServerPost ServerComment
    getUserPermissionsForPost getPostFromStringId updatePostTags
    content_warnings index_tags category_tags whisper_tags makeServerPost
    ensureNoIdentityLeakage getTagsDelta canDoTagsEdit.
Let tagsDeltaOf :=
  requestedTagsDelta Json Db DbPost TagsDelta getPostFromStringId
    content_warnings index_tags category_tags whisper_tags getTagsDelta.

(** X17: the edit route writes to the storage only for a logged-in user
    whose permissions for the post are not empty and allow the delta between
    the stored tags and the requested ones; the write is then the one
    [updatePostTags] makes with that delta. *)
Theorem edit_writes_only_when_permitted (db : Db) (req : Request Json) :
  storage (editRoute db req) ≠ db →
  ∃ user permissions,
    currentUser req = Some user ∧
    getUserPermissionsForPost db (uid user) (routePostId req) = Some permissions ∧
    permissions ≠ [] ∧
    canDoTagsEdit (tagsDeltaOf db (uid user) req) permissions = true ∧
    storage (editRoute db req) =
      (updatePostTags db (uid user) (routePostId req) (tagsDeltaOf db (uid user) req)).2.
Proof.
  unfold editRoute, tagsDeltaOf, edit, storage. cbv zeta.
  destruct (currentUser req) as [user |]; [| simpl; congruence].
  destruct (getUserPermissionsForPost _ _ _) as [permissions |] eqn:Hperm;
    [| simpl; congruence].
  destruct permissions as [| p permissions]; [simpl; congruence |].
  cbn [length Nat.eqb].
  destruct (canDoTagsEdit _ _) eqn:Hcan; [| simpl; congruence]. cbn [negb].
  destruct (updatePostTags _ _ _ _) as [updated db'] eqn:Hupd.
  intros _. exists user, (p :: permissions).
  split; [done |]. split; [done |]. split; [done |]. split; [done |].
  rewrite Hupd.
  destruct updated as [updated |]; [destruct (ensureNoIdentityLeakage _) |];
    reflexivity.
Qed.

(** X18: the edit route answers 401 exactly when there is no logged-in user,
    or the user holds no permission for the post, or the permissions held do
    not allow the requested delta. *)
Theorem edit_unauthorized_iff (db : Db) (req : Request Json) :
  settled (editRoute db req) = Responded (SendStatus 401) ↔
  currentUser req = None ∨
  ∃ user permissions,
    currentUser req = Some user ∧
    getUserPermissionsForPost db (uid user) (routePostId req) = Some permissions ∧
    (permissions = [] ∨
     canDoTagsEdit (tagsDeltaOf db (uid user) req) permissions = false).
Proof.
  unfold editRoute, tagsDeltaOf, edit, settled. cbv zeta.
  destruct (currentUser req) as [user |]; [| split; [by left | done]].
  destruct (getUserPermissionsForPost _ _ _) as [permissions |] eqn:Hperm.
  - destruct permissions as [| p permissions].
    + split; [| done]. intros _. right. exists user, []. eauto.
    + cbn [length Nat.eqb].
      destruct (canDoTagsEdit _ _) eqn:Hcan; cbn [negb].
      * split.
        -- destruct (updatePostTags _ _ _ _) as [[updated |] db']; [| done].
           by destruct (ensureNoIdentityLeakage _).
        -- intros [? | (user' & perms & [= <-] & Hp & Hor)]; [done |].
           rewrite Hperm in Hp. injection Hp as <-.
           destruct Hor as [? | Hno]; [done |]. congruence.
      * split; [| done]. intros _. right. exists user, (p :: permissions). eauto.
  - split; [done |].
    intros [? | (user' & perms & [= <-] & Hp & _)]; [done |]. congruence.
Qed.

(** X19: the edit route answers with a JSON body exactly when the user is
    logged in, holds permissions that allow the delta, the update returns the
    post and the post passes the leak check; the status is then 220 and the
    body is the updated post as [makeServerPost] renders it. *)
Theorem edit_success_iff
    (db : Db) (req : Request Json) (code : Z) (b : Body ServerPost ServerComment) :
  settled (editRoute db req) = Responded (StatusJson code b) ↔
  ∃ user permissions updated,
    currentUser req = Some user ∧
    getUserPermissionsForPost db (uid user) (routePostId req) = Some permissions ∧
    permissions ≠ [] ∧
    canDoTagsEdit (tagsDeltaOf db (uid user) req) permissions = true ∧
    (updatePostTags db (uid user) (routePostId req) (tagsDeltaOf db (uid user) req)).1
      = Some updated ∧
    ensureNoIdentityLeakage (inl (makeServerPost updated)) = true ∧
    code = 220%Z ∧ b = PostBody (makeServerPost updated).
Proof.
  unfold editRoute, tagsDeltaOf, edit, settled. cbv zeta.
  destruct (currentUser req) as [user |];
    [| split; [done | by intros (? & ? & ? & ? & _)]].
  destruct (getUserPermissionsForPost _ _ _) as [permissions |] eqn:Hperm;
    [| split; [done | intros (? & ? & ? & [= <-] & Hp & _); congruence]].
  destruct permissions as [| p permissions].
  { split; [done |]. intros (? & ? & ? & [= <-] & Hp & Hne & _).
    rewrite Hperm in Hp. by injection Hp as <-. }
  cbn [length Nat.eqb].
  destruct (canDoTagsEdit _ _) eqn:Hcan; cbn [negb].
  - destruct (updatePostTags _ _ _ _) as [[updated |] db'] eqn:Hupd.
    + destruct (ensureNoIdentityLeakage _) eqn:Hleak; cbn [fst].
      * split.
        -- intros [= <- <-]. exists user, (p :: permissions), updated.
           rewrite Hupd. by repeat split.
        -- intros (? & ? & updated' & [= <-] & Hp & _ & _ & Hu & _ & -> & ->).
           rewrite Hupd in Hu. cbn [fst] in Hu. by injection Hu as <-.
      * split; [done |].
        intros (? & ? & updated' & [= <-] & Hp & _ & _ & Hu & Hl & _).
        rewrite Hupd in Hu. cbn [fst] in Hu. injection Hu as <-. congruence.
    + split; [done |].
      intros (? & ? & updated' & [= <-] & Hp & _ & _ & Hu & _).
      rewrite Hupd in Hu. done.
  - split; [done |].
    intros (? & perms & ? & [= <-] & Hp & _ & Hc & _).
    rewrite Hperm in Hp. injection Hp as <-. congruence.
Qed.

(** X20: whichever of the four routes answers with a JSON body, every post
    and comment in the body has passed [ensureNoIdentityLeakage]. *)
Theorem json_bodies_pass_leak_check
    (route : Db -> Request Json -> RouteResult Json Db ServerPost ServerComment)
    (db : Db) (req : Request Json) (code : Z) (b : Body ServerPost ServerComment) :
  route = contributeRoute ∨ route = commentRoute ∨
  route = commentChainRoute ∨ route = editRoute →
  settled (route db req) = Responded (StatusJson code b) →
  Forall (fun x => ensureNoIdentityLeakage x = true) (body_items b).
Proof.
  unfold settled.
  intros [-> | [-> | [-> | ->]]].
  - unfold contributeRoute, contribute.
    destruct (currentUser req) as [user |]; [| done].
    destruct (postNewContribution _ _) as [[[contribution slug] |] db']; [| done].
    cbv zeta. destruct (ensureNoIdentityLeakage _) eqn:Hleak; [| done].
    intros [= <- <-]. simpl. by repeat constructor.
  - unfold commentRoute, comment.
    destruct (currentUser req) as [user |]; [| done].
    destruct (postNewComment _ _) as [[c |] db']; [| done].
    cbv zeta. destruct (ensureNoIdentityLeakage _) eqn:Hleak; [| done].
    intros [= <- <-]. simpl. by repeat constructor.
  - unfold commentChainRoute, commentChain.
    destruct (currentUser req) as [user |]; [| done].
    destruct (postNewCommentChain _ _) as [[cs |] db']; [| done].
    cbv zeta. destruct (forallb _ _) eqn:Hall; [| done].
    intros [= <- <-]. simpl.
    rewrite forallb_forall in Hall. apply Forall_forall. intros x Hx.
    apply map_elem_of in Hx as (c & -> & Hc). apply Hall. by apply list_elem_of_In.
  - unfold editRoute, edit. cbv zeta.
    destruct (currentUser req) as [user |]; [| done].
    destruct (getUserPermissionsForPost _ _ _) as [[| p permissions] |]; [done | | done].
    cbn [length Nat.eqb].
    destruct (negb _); [done |].
    destruct (updatePostTags _ _ _ _) as [[updated |] db']; [| done].
    destruct (ensureNoIdentityLeakage _) eqn:Hleak; [| done].
    intros [= <- <-]. simpl. by repeat constructor.
Qed.

(** X21: the chain route stores the comments before it checks them: its
    promise rejects exactly when a user is logged in, the comments were
    stored, and one of them fails the leak check; the write is not undone. *)
Theorem chain_rejects_after_write_iff_a_comment_leaks (db : Db) (req : Request Json) :
  settled (commentChainRoute db req) = Rejected ↔
  ∃ user comments leaking,
    currentUser req = Some user ∧
    (postNewCommentChain db
       {| chain_firebaseId := uid user;
          chain_parentPostId := routePostId req;
          chain_parentCommentId := body req !! "replyToCommentId";
          chain_contentArray := body req !! "contentArray";
          chain_anonymityType :=
            anonymityType Json js_truthy (body req !! "forceAnonymous");
          chain_identityId := body req !! "identityId" |}) =
      (Some comments, storage (commentChainRoute db req)) ∧
    leaking ∈ comments ∧
    ensureNoIdentityLeakage (inr (makeServerComment leaking)) = false.
Proof.
  unfold commentChainRoute, commentChain, settled, storage.
  destruct (currentUser req) as [user |];
    [| split; [done | by intros (? & ? & ? & ? & _)]].
  destruct (postNewCommentChain _ _) as [[comments |] db'] eqn:Hq; cbv zeta.
  - destruct (forallb _ _) eqn:Hall; cbn [fst snd].
    + split; [done |].
      intros (user' & comments' & c & [= <-] & Hq' & Hc & Hleak).
      rewrite Hq in Hq'. injection Hq' as <-.
      rewrite forallb_forall in Hall.
      assert (ensureNoIdentityLeakage (inr (makeServerComment c)) = true) as Hok.
      { apply Hall. apply in_map. by apply list_elem_of_In. }
      congruence.
    + split; [| done]. intros _.
      assert (∃ c, c ∈ comments ∧
                   ensureNoIdentityLeakage (inr (makeServerComment c)) = false)
        as (c & Hc & Hleak).
      { clear Hq. induction comments as [| c comments IH]; simpl in Hall; [done |].
        destruct (ensureNoIdentityLeakage (inr (makeServerComment c))) eqn:E.
        - destruct (IH Hall) as (c' & Hc' & Hleak). exists c'. split; [by right | done].
        - exists c. split; [by left | done]. }
      exists user, comments, c. rewrite Hq. by repeat split.
  - split; [done |].
    intros (user' & comments' & c & [= <-] & Hq' & _).
    rewrite Hq in Hq'. done.
Qed.

(** X22: subscriptions are updated by the contribute route only, exactly
    when it answered 200, and once: for the thread, post and identity of the
    contribution it answered with. *)
Theorem subscriptions_updated_iff_contribution_sent (db : Db) (req : Request Json) :
  (updates (contributeRoute db req) = [] ∧
   (∀ code b, settled (contributeRoute db req) ≠ Responded (StatusJson code b))
   ∨
   ∃ post boardSlug,
     settled (contributeRoute db req) =
       Responded (StatusJson 200 (ContributionBody post)) ∧
     updates (contributeRoute db req) =
       [{| update_threadId := parent_thread_id post;
           update_postId := post_id post;
           update_boardSlug := boardSlug;
           update_secretIdentity := secret_identity post;
           update_categoryNames := server_category_tags post |}]) ∧
  updates (commentRoute db req) = [] ∧
  updates (commentChainRoute db req) = [] ∧
  updates (editRoute db req) = [].
Proof.
  unfold updates, settled. split; [| split; [| split]].
  - unfold contributeRoute, contribute.
    destruct (currentUser req) as [user |]; [| by left].
    destruct (postNewContribution _ _) as [[[contribution slug] |] db']; [| by left].
    cbv zeta. destruct (ensureNoIdentityLeakage _); [| by left].
    right. by eexists _, _.
  - unfold commentRoute, comment.
    destruct (currentUser req) as [user |]; [| done].
    destruct (postNewComment _ _) as [[c |] db']; [| done].
    cbv zeta. by destruct (ensureNoIdentityLeakage _).
  - unfold commentChainRoute, commentChain.
    destruct (currentUser req) as [user |]; [| done].
    destruct (postNewCommentChain _ _) as [[cs |] db']; [| done].
    cbv zeta. by destruct (forallb _ _).
  - unfold editRoute, edit. cbv zeta.
    destruct (currentUser req) as [user |]; [| done].
    destruct (getUserPermissionsForPost _ _ _) as [[| p permissions] |]; [done | | done].
    cbn [length Nat.eqb].
    destruct (negb _); [done |].
    destruct (updatePostTags _ _ _ _) as [[updated |] db']; [| done].
    by destruct (ensureNoIdentityLeakage _).
Qed.
End RouteFacts.

(** The routes run on the small deployment. *)
Example edit_by_mod :
  demo_edit [] (request_of (Some "mod") [("categoryTags", "spoilers")]) =
  (Responded (StatusJson 220 (PostBody "spoilers")), ["spoilers"], []).
Proof. vm_compute. reflexivity. Qed.

Example edit_by_guest :
  demo_edit [] (request_of (Some "guest") [("categoryTags", "spoilers")]) =
  (Responded (SendStatus 401), [], []).
Proof. vm_compute. reflexivity. Qed.

Example edit_leaking_after_write :
  demo_edit [] (request_of (Some "mod") [("categoryTags", "leak")]) =
  (Rejected, ["leak"], []).
Proof. vm_compute. reflexivity. Qed.

Example contribute_anonymous_request :
  demo_contribute [] (request_of None [("content", "hello")]) = (Rejected, [], []).
Proof. vm_compute. reflexivity. Qed.

Example contribute_by_user :
  demo_contribute [] (request_of (Some "mod") [("content", "hello")]) =
  (Responded (StatusJson 200 (ContributionBody "hello")), ["hello"],
   [{| update_threadId := "hello"; update_postId := "hello";
       update_boardSlug := "gore"; update_secretIdentity := "hello";
       update_categoryNames := Some "hello" |}]).
Proof. vm_compute. reflexivity. Qed.

Lemma edit_writes_only_when_permitted_witness :
  storage (demo_edit [] (request_of (Some "mod") [("categoryTags", "spoilers")])) ≠ [] ∧
  ∃ user permissions,
    currentUser (request_of (Some "mod") [("categoryTags", "spoilers")]) = Some user ∧
    demo_permissions [] (uid user) "p1" = Some permissions ∧
    permissions ≠ [] ∧
    demo_canDoTagsEdit (Some "stored", Some "spoilers") permissions = true ∧
    storage (demo_edit [] (request_of (Some "mod") [("categoryTags", "spoilers")])) =
      ["spoilers"].
Proof.
  assert (storage (demo_edit [] (request_of (Some "mod") [("categoryTags", "spoilers")]))
          ≠ []) as Hne by (vm_compute; discriminate).
  split; [exact Hne |].
  exact (edit_writes_only_when_permitted demo_permissions (fun _ _ _ => "stored")
           demo_updatePostTags (fun _ => None) (fun _ => None) (fun p => Some p)
           (fun _ => None) (fun p => p) demo_leak_free demo_getTagsDelta
           demo_canDoTagsEdit []
           (request_of (Some "mod") [("categoryTags", "spoilers")]) Hne).
Defined.

Lemma json_bodies_pass_leak_check_witness :
  settled (demo_commentChain [] (request_of (Some "mod") [("contentArray", "hi")])) =
    Responded (StatusJson 200 (CommentsBody ["hi"; "hi"])) ∧
  Forall (fun x => demo_leak_free x = true) [inr "hi"; inr "hi"].
Proof.
  split; [vm_compute; reflexivity |].
  apply (json_bodies_pass_leak_check demo_truthy demo_postNewContribution
           demo_postNewComment demo_postNewCommentChain demo_permissions
           (fun _ _ _ => "stored") demo_updatePostTags
           (fun _ => None) (fun _ => None) (fun p => Some p) (fun _ => None)
           (fun p => p) (fun c => c) demo_leak_free demo_getTagsDelta demo_canDoTagsEdit
           (fun p => p) (fun p => p) (fun p => p) (fun p => Some p)
           demo_commentChain [] (request_of (Some "mod") [("contentArray", "hi")])
           200 (CommentsBody ["hi"; "hi"])).
  - right. right. left. reflexivity.
  - vm_compute. reflexivity.
Defined.
